(** * Carbon footprint tracker: the calculation core of [app.py]

    A shallow embedding of [calculate_footprint], of the emission factor
    table it reads, of the session history it feeds and of the branch that
    decides whether reduction tips are requested; then of the handlers of
    the two buttons as steps of the session and of [get_gemini_response],
    the exchange with the remote service being a parameter.

    Numbers.  Python evaluates the arithmetic of [app.py] on IEEE 754
    binary64 values: every product has a [float] literal of the table as
    one operand, and an [int] operand is converted to [float] before the
    operation.  Python numbers are therefore embedded as Rocq's primitive
    binary64 floats, an [int] being represented by the [float] Python
    converts it to (exact for every integer of magnitude up to 2^53, which
    covers what the integer input widgets can deliver).  An [int] too large
    for a [float] has no such representative: on it the product raises
    [OverflowError], a case that is outside this embedding, so that what
    is proved of [calculate_footprint] is proved of its calls on floats
    and on the integers Python converts to floats. *)

From Stdlib Require Import String List ZArith Bool Lia.
From Stdlib Require Import Floats.
From Stdlib Require Import Sorting.Permutation Sorting.Sorted.
Import ListNotations.

Local Open Scope string_scope.
Local Open Scope float_scope.

(** A decimal literal denotes the binary64 value nearest to it, as it does
    in Python. *)
Set Warnings "-inexact-float".

(** ** Python dictionaries

    A [dict] keeps its keys in insertion order; assigning to a key that is
    already present replaces the value in place. *)

Module Dict.

Definition t (V : Type) := list (string * V).

Definition empty {V} : t V := [].

Fixpoint get {V} (d : t V) (k : string) : option V :=
  match d with
  | [] => None
  | (k', v) :: d' => if String.eqb k k' then Some v else get d' k
  end.

Fixpoint set {V} (d : t V) (k : string) (v : V) : t V :=
  match d with
  | [] => [(k, v)]
  | (k', v') :: d' =>
      if String.eqb k k' then (k', v) :: d' else (k', v') :: set d' k v
  end.

Definition keys {V} (d : t V) : list string := map fst d.
Definition values {V} (d : t V) : list V := map snd d.
Definition items {V} (d : t V) : list (string * V) := d.

End Dict.

(** ** Exceptions

    The only exception the embedded code could raise is the [KeyError] of
    a subscript [d[k]] on a missing key. *)

Inductive exn : Type :=
| KeyError (key : string).

Inductive result (A : Type) : Type :=
| Ok (a : A)
| Raise (e : exn).

Arguments Ok {A} a.
Arguments Raise {A} e.

Definition bind {A B} (c : result A) (k : A -> result B) : result B :=
  match c with
  | Ok a => k a
  | Raise e => Raise e
  end.

Notation "x <- c ;; k" := (bind c (fun x => k))
  (at level 61, c at next level, right associativity).
Notation "' p <- c ;; k" := (bind c (fun x => let p := x in k))
  (at level 61, p pattern, c at next level, right associativity).

(** [d[k]] *)
Definition getitem {V} (d : Dict.t V) (k : string) : result V :=
  match Dict.get d k with
  | Some v => Ok v
  | None => Raise (KeyError k)
  end.

(** ** The emission factor table, [EMISSION_FACTORS] (kg CO2e per unit) *)

Definition EMISSION_FACTORS : Dict.t (Dict.t float) :=
  [ ("transportation",
      [ ("gasoline_car_km", 0.21);
        ("electric_car_km", 0.05);
        ("public_transport_km", 0.04);
        ("flight_km", 0.15) ]);
    ("electricity",
      [ ("kwh", 0.23) ]);
    ("diet",
      [ ("high_meat", 2.5);
        ("medium_meat", 1.5);
        ("low_meat", 0.8);
        ("vegetarian", 0.5);
        ("vegan", 0.3) ]);
    ("waste",
      [ ("kg_waste", 0.2) ]) ].

(** [EMISSION_FACTORS[category][variant]] *)
Definition factor (category variant : string) : result float :=
  d <- getitem EMISSION_FACTORS category ;;
  getitem d variant.

(** ** [calculate_footprint]

    The statements of the source in their order; [total_co2e] and
    [breakdown] are rebound where the source updates them in place.  The
    [int] literals [0] and [30] stand as the floats they are converted to
    in the sums and products. *)

Definition calculate_footprint
    (transport_km : float) (transport_type : string)
    (electricity_kwh : float) (diet_choice : string) (waste_kg : float)
  : result (float * Dict.t float) :=
  let total_co2e := 0 in
  let breakdown : Dict.t float := Dict.empty in
  (* Transportation *)
  transport_co2e <-
    (if String.eqb transport_type "Gasoline Car" then
       f <- factor "transportation" "gasoline_car_km" ;; Ok (transport_km * f)
     else if String.eqb transport_type "Electric Car" then
       f <- factor "transportation" "electric_car_km" ;; Ok (transport_km * f)
     else if String.eqb transport_type "Public Transport" then
       f <- factor "transportation" "public_transport_km" ;; Ok (transport_km * f)
     else if String.eqb transport_type "Flight" then
       f <- factor "transportation" "flight_km" ;; Ok (transport_km * f)
     else Ok 0) ;;
  let total_co2e := total_co2e + transport_co2e in
  let breakdown := Dict.set breakdown "Transportation" transport_co2e in
  (* Electricity *)
  electricity_co2e <-
    (f <- factor "electricity" "kwh" ;; Ok (electricity_kwh * f)) ;;
  let total_co2e := total_co2e + electricity_co2e in
  let breakdown := Dict.set breakdown "Electricity" electricity_co2e in
  (* Diet *)
  diet_co2e <-
    (if String.eqb diet_choice "High Meat (Daily)" then
       f <- factor "diet" "high_meat" ;; Ok (f * 30)
     else if String.eqb diet_choice "Medium Meat (Few times/week)" then
       f <- factor "diet" "medium_meat" ;; Ok (f * 30)
     else if String.eqb diet_choice "Low Meat (Once/week)" then
       f <- factor "diet" "low_meat" ;; Ok (f * 30)
     else if String.eqb diet_choice "Vegetarian" then
       f <- factor "diet" "vegetarian" ;; Ok (f * 30)
     else if String.eqb diet_choice "Vegan" then
       f <- factor "diet" "vegan" ;; Ok (f * 30)
     else Ok 0) ;;
  let total_co2e := total_co2e + diet_co2e in
  let breakdown := Dict.set breakdown "Diet" diet_co2e in
  (* Waste *)
  waste_co2e <-
    (f <- factor "waste" "kg_waste" ;; Ok (waste_kg * f)) ;;
  let total_co2e := total_co2e + waste_co2e in
  let breakdown := Dict.set breakdown "Waste" waste_co2e in
  Ok (total_co2e, breakdown).

(** The key of the table that the chain of tests selects for a label of
    the select box, if any. *)
Definition transport_key (transport_type : string) : option string :=
  if String.eqb transport_type "Gasoline Car" then Some "gasoline_car_km"
  else if String.eqb transport_type "Electric Car" then Some "electric_car_km"
  else if String.eqb transport_type "Public Transport"
       then Some "public_transport_km"
  else if String.eqb transport_type "Flight" then Some "flight_km"
  else None.

Definition diet_key (diet_choice : string) : option string :=
  if String.eqb diet_choice "High Meat (Daily)" then Some "high_meat"
  else if String.eqb diet_choice "Medium Meat (Few times/week)"
       then Some "medium_meat"
  else if String.eqb diet_choice "Low Meat (Once/week)" then Some "low_meat"
  else if String.eqb diet_choice "Vegetarian" then Some "vegetarian"
  else if String.eqb diet_choice "Vegan" then Some "vegan"
  else None.

(** The labels offered by the two select boxes of the sidebar. *)
Definition transport_types : list string :=
  [ "Gasoline Car"; "Electric Car"; "Public Transport"; "Flight" ].

Definition diet_choices : list string :=
  [ "High Meat (Daily)"; "Medium Meat (Few times/week)";
    "Low Meat (Once/week)"; "Vegetarian"; "Vegan" ].

(** [sum(xs)]: the items added from left to right, starting from 0.
    (From version 3.12 on, CPython compensates the rounding errors of this
    accumulation when the items are floats, which can change the last bits
    of the result; the plain accumulation is what is defined here.) *)
Definition py_sum (xs : list float) : float :=
  fold_left PrimFloat.add xs 0.

(** ** Session state and the history of past calculations *)

Record footprint : Type := {
  date : string;
  total : float;
  breakdown : Dict.t float
}.

Record session_state : Type := {
  footprint_history : list footprint;
  current_footprint : option footprint
}.

(** The state set up when the session starts. *)
Definition init_session : session_state :=
  {| footprint_history := []; current_footprint := None |}.

(** [list.append] *)
Definition append {A} (l : list A) (x : A) : list A := l ++ [x].

(** The handler of the button [Calculate My Carbon Footprint]; [today] is
    the formatted date of the day.  An exception of the calculation would
    leave the handler before the state is touched. *)
Definition on_calculate (today : string)
    (transport_km : float) (transport_type : string)
    (electricity_kwh : float) (diet_choice : string) (waste_kg : float)
    (st : session_state) : result session_state :=
  ' (total_footprint, breakdown) <-
      calculate_footprint transport_km transport_type
                          electricity_kwh diet_choice waste_kg ;;
  let current :=
    {| date := today; total := total_footprint; breakdown := breakdown |} in
  Ok {| footprint_history := append (footprint_history st) current;
        current_footprint := Some current |}.

(** The handler of the button [Start Fresh / Reset Data]: the state it
    leaves.  Once the two fields are cleared the handler calls
    [st.experimental_rerun()], which ends the run of the script by an
    exception; that call, after which nothing of the handler is run, is
    not part of the state and is left out. *)
Definition on_reset (st : session_state) : session_state :=
  {| footprint_history := []; current_footprint := None |}.

(** ** Reduction tips *)

(** [sorted(items, key=lambda item: item[1], reverse=True)]: a stable sort
    in descending order of the contribution, items of equal contribution
    keeping their order.  The sort is written as an insertion sort, which
    gives the list [sorted] gives whenever no contribution is NaN; the
    order [sorted] leaves items in when one is NaN is not reproduced. *)
Fixpoint insert_desc (x : string * float) (l : list (string * float))
  : list (string * float) :=
  match l with
  | [] => [x]
  | y :: l' =>
      if snd y <? snd x then x :: y :: l' else y :: insert_desc x l'
  end.

Definition sorted_desc (l : list (string * float)) : list (string * float) :=
  fold_left (fun acc x => insert_desc x acc) l [].

(** [sep.join(parts)] *)
Definition join (sep : string) (parts : list string) : string :=
  String.concat sep parts.

(** What the page does that can be observed: the calls of
    [get_gemini_response] and the texts shown with [st.error],
    [st.markdown] and [st.info] (the spinner shown while the call lasts is
    left out). *)
Inductive action : Type :=
| call_get_gemini_response (prompt : string)
| st_error (text : string)
| st_markdown (text : string)
| st_info (text : string).

Definition is_call_get_gemini_response (a : action) : bool :=
  match a with
  | call_get_gemini_response _ => true
  | _ => false
  end.

Section Tips.

(** [f"{x:.2f}"] *)
Variable format_2f : float -> string.

(** The outcome of [get_gemini_response] for a prompt, which depends on the
    remote service: the errors it shows with [st.error] when the exchange
    fails, and the text it returns. *)
Variable get_gemini_response : string -> list action * string.

Definition top_categories (current_breakdown : Dict.t float) : string :=
  let sorted_breakdown := sorted_desc (Dict.items current_breakdown) in
  join ", "
    (map fst (filter (fun item => 0 <? snd item) sorted_breakdown)).

Definition gemini_prompt (current_total_footprint : float) (top : string)
  : string :=
  "The user's monthly carbon footprint is "
  ++ format_2f current_total_footprint
  ++ " kg CO2e. The main contributing categories are: " ++ top
  ++ ". Please provide 3-5 actionable and practical tips for reducing carbon emissions in these specific areas, suitable for an individual. Focus on easy-to-implement changes and provide a brief explanation for each tip. Format as a bulleted list.".

Definition no_tips_message : string :=
  "No specific categories identified for tips as your footprint is very low or zero. Keep up the great work!".

(** The section [Personalized Reduction Tips] of the page, which is
    rendered for the current footprint when there is one. *)
Definition personalized_tips (current : footprint) : list action :=
  let current_total_footprint := total current in
  let current_breakdown := breakdown current in
  let top := top_categories current_breakdown in
  if negb (String.eqb top "") then
    let prompt := gemini_prompt current_total_footprint top in
    let '(shown, ai_tips) := get_gemini_response prompt in
    call_get_gemini_response prompt :: shown ++ [ st_markdown ai_tips ]
  else
    [ st_info no_tips_message ].

End Tips.

(** The categories of a breakdown whose contribution is not zero. *)
Definition nonzero_categories (b : Dict.t float) : list string :=
  map fst (filter (fun item => negb (snd item =? 0)) (Dict.items b)).

(** The contribution of a category in the result of a calculation. *)
Definition contribution (r : result (float * Dict.t float)) (category : string)
  : option float :=
  match r with
  | Ok (_, breakdown) => Dict.get breakdown category
  | Raise _ => None
  end.

(** The arguments of [calculate_footprint], packed, and its three numeric
    parameters. *)
Record activity : Type := {
  transport_km : float;
  transport_type : string;
  electricity_kwh : float;
  diet_choice : string;
  waste_kg : float
}.

Definition calculate (a : activity) : result (float * Dict.t float) :=
  calculate_footprint (transport_km a) (transport_type a)
                      (electricity_kwh a) (diet_choice a) (waste_kg a).

Inductive numeric_input : Type :=
| in_transport_km
| in_electricity_kwh
| in_waste_kg.

Definition get_input (i : numeric_input) (a : activity) : float :=
  match i with
  | in_transport_km => transport_km a
  | in_electricity_kwh => electricity_kwh a
  | in_waste_kg => waste_kg a
  end.

Definition set_input (i : numeric_input) (v : float) (a : activity)
  : activity :=
  match i with
  | in_transport_km =>
      {| transport_km := v; transport_type := transport_type a;
         electricity_kwh := electricity_kwh a; diet_choice := diet_choice a;
         waste_kg := waste_kg a |}
  | in_electricity_kwh =>
      {| transport_km := transport_km a; transport_type := transport_type a;
         electricity_kwh := v; diet_choice := diet_choice a;
         waste_kg := waste_kg a |}
  | in_waste_kg =>
      {| transport_km := transport_km a; transport_type := transport_type a;
         electricity_kwh := electricity_kwh a; diet_choice := diet_choice a;
         waste_kg := v |}
  end.

(** The category of the breakdown a numeric parameter feeds. *)
Definition category_of (i : numeric_input) : string :=
  match i with
  | in_transport_km => "Transportation"
  | in_electricity_kwh => "Electricity"
  | in_waste_kg => "Waste"
  end.

Definition categories : list string :=
  [ "Transportation"; "Electricity"; "Diet"; "Waste" ].

(** What the two chains of tests leave in [transport_co2e] and in
    [diet_co2e]. *)
Definition transport_part (km : float) (ty : string) (t : float) : Prop :=
  match transport_key ty with
  | Some k => exists f, factor "transportation" k = Ok f /\ t = km * f
  | None => t = 0
  end.

Definition diet_part (diet : string) (d : float) : Prop :=
  match diet_key diet with
  | Some k => exists f, factor "diet" k = Ok f /\ d = f * 30
  | None => d = 0
  end.

(** ** Binary64 rounding

    Auxiliary notions for the facts about binary64 products and sums that
    the properties of the calculation rest on: rounding to nearest, ties to
    even, of a quotient; the state of the shift register of the rounding
    routine; the shape of its result; the value the routine computes. *)

Module Round.

Local Open Scope Z_scope.

Definition rne (a N : Z) : Z :=
  let q := a / N in
  let r := a mod N in
  match 2 * r ?= N with
  | Lt => q
  | Gt => q + 1
  | Eq => if Z.even q then q else q + 1
  end.

(** The state of the shift register after [j] steps from [(p, false, false)]. *)
Definition shr_inv (p : Z) (j : Z) (mrs : shr_record) : Prop :=
  0 <= shr_m mrs /\
  exists u, 0 <= u < 2 ^ j /\
    2 * p = 2 * shr_m mrs * 2 ^ j + (if shr_r mrs then 2 ^ j else 0) + u /\
    (shr_s mrs = false <-> u = 0).

Definition sf_out (s : bool) (m e : Z) : spec_float :=
  match m with
  | Z0 => S754_zero s
  | Zpos m => if e <=? emax - prec then S754_finite s m e else S754_infinity s
  | Zneg _ => S754_nan
  end.

Definition fexp64 (k : Z) : Z := fexp prec emax k.

Definition rndV (lo V : Z) : Z :=
  let E := Z.max (Zdigits2 V - 53) lo in
  rne V (2 ^ E) * 2 ^ E.

Definition canonical (m e : Z) : Prop := fexp64 (Zdigits2 m + e) = e.

Definition SF_nonneg (u : spec_float) : bool := SFleb (S754_zero false) u.
Definition SF_nonpos (u : spec_float) : bool := SFleb u (S754_zero false).

End Round.

(** ** The page as a whole

    Notions for the properties of the sort, of the session and of the
    exchange with the text generation service. *)

(** A list of items in descending order of contribution. *)
Definition descending (l : list (string * float)) : Prop :=
  StronglySorted (fun a b => (snd b <=? snd a) = true) l.

(** The categories [top_categories] joins. *)
Definition positive_categories (b : Dict.t float) : list string :=
  map fst (filter (fun item => 0 <? snd item) (sorted_desc (Dict.items b))).

(** The items whose contribution equals [v]. *)
Definition with_contribution (v : float) (l : list (string * float))
  : list (string * float) :=
  filter (fun item => snd item =? v) l.

(** The total in the result of a calculation. *)
Definition total_of (r : result (float * Dict.t float)) : option float :=
  match r with
  | Ok (total_co2e, _) => Some total_co2e
  | Raise _ => None
  end.

(** The clicks on the two buttons of the page.  Streamlit runs the script
    again at each interaction, the session state being kept from one run
    to the next; only the handlers of the two buttons change it. *)
Inductive click : Type :=
| click_calculate (today : string) (a : activity)
| click_reset.

Definition on_click (c : click) (st : session_state) : result session_state :=
  match c with
  | click_calculate today a =>
      on_calculate today (transport_km a) (transport_type a)
                   (electricity_kwh a) (diet_choice a) (waste_kg a) st
  | click_reset => Ok (on_reset st)
  end.

Fixpoint run_clicks (cs : list click) (st : session_state)
  : result session_state :=
  match cs with
  | [] => Ok st
  | c :: cs' => st' <- on_click c st ;; run_clicks cs' st'
  end.

(** The number of calculations since the last reset. *)
Definition calculations_since_reset (cs : list click) : nat :=
  fold_left (fun n c => match c with
                        | click_calculate _ _ => S n
                        | click_reset => O
                        end) cs O.

(** What the widgets of the sidebar guarantee of the values they deliver:
    [min_value=0] for the three numbers, one of the options for the two
    labels. *)
Definition from_widgets (a : activity) : Prop :=
  (0 <=? transport_km a) = true
  /\ (0 <=? electricity_kwh a) = true
  /\ (0 <=? waste_kg a) = true
  /\ In (transport_type a) transport_types
  /\ In (diet_choice a) diet_choices.

Definition click_from_widgets (c : click) : Prop :=
  match c with
  | click_calculate _ a => from_widgets a
  | click_reset => True
  end.

Definition is_calculation (c : click) : bool :=
  match c with
  | click_calculate _ _ => true
  | click_reset => false
  end.

(** ** [get_gemini_response] *)

Module Gemini.

Definition GEMINI_API_URL : string :=
  "https://generativelanguage.googleapis.com/v1beta/models/gemini-1.5-flash:generateContent".

Definition API_KEY : string := " ".

Set Warnings "-register-all".

(** The values [json.dumps] takes and [response.json()] gives. *)
Inductive json : Type :=
| JNull
| JBool (b : bool)
| JInt (n : Z)
| JFloat (x : float)
| JStr (s : string)
| JList (items : list json)
| JDict (members : Dict.t json).

(** [type(v).__name__] *)
Definition type_name (v : json) : string :=
  match v with
  | JNull => "NoneType"
  | JBool _ => "bool"
  | JInt _ => "int"
  | JFloat _ => "float"
  | JStr _ => "str"
  | JList _ => "list"
  | JDict _ => "dict"
  end.

(** [bool(v)] *)
Definition truthy (v : json) : bool :=
  match v with
  | JNull => false
  | JBool b => b
  | JInt n => negb (Z.eqb n 0)
  | JFloat x => negb (x =? 0)
  | JStr s => negb (String.eqb s "")
  | JList items => match items with [] => false | _ :: _ => true end
  | JDict members => match members with [] => false | _ :: _ => true end
  end.

(** The exceptions, by the [except] clause they reach and, for those of
    the navigation in the answer, by what raised them. *)
Inductive py_exception : Type :=
| RequestException (what : string)
| JSONDecodeError (what : string)
| AttributeError (type attribute : string)
| TypeError (type operation : string)
| MissingKey (key : string)
| IndexOutOfRange (type : string)
| OtherException (what : string).

Inductive attempt (A : Type) : Type :=
| Done (a : A)
| Raised (e : py_exception).

Arguments Done {A} a.
Arguments Raised {A} e.

Definition and_then {A B} (c : attempt A) (k : A -> attempt B) : attempt B :=
  match c with
  | Done a => k a
  | Raised e => Raised e
  end.

Notation "x <~ c ;; k" := (and_then c (fun x => k))
  (at level 61, c at next level, right associativity).

(** [v.get(key, default)] *)
Definition py_get (v : json) (key : string) (default : json) : attempt json :=
  match v with
  | JDict members =>
      Done (match Dict.get members key with
            | Some x => x
            | None => default
            end)
  | _ => Raised (AttributeError (type_name v) "get")
  end.

(** [len(v)]; the length of a string is counted in bytes here, which
    agrees with Python on whether it is zero. *)
Definition py_len (v : json) : attempt Z :=
  match v with
  | JStr s => Done (Z.of_nat (String.length s))
  | JList items => Done (Z.of_nat (List.length items))
  | JDict members => Done (Z.of_nat (List.length members))
  | _ => Raised (TypeError (type_name v) "len")
  end.

(** [v[key]] for a string [key] *)
Definition py_item (v : json) (key : string) : attempt json :=
  match v with
  | JDict members =>
      match Dict.get members key with
      | Some x => Done x
      | None => Raised (MissingKey key)
      end
  | _ => Raised (TypeError (type_name v) "getitem")
  end.

(** [v[0]]; the keys of a parsed object are strings, so an object has no
    key [0]; of a string only the type of the result matters to what
    follows. *)
Definition py_first (v : json) : attempt json :=
  match v with
  | JList (x :: _) => Done x
  | JList [] => Raised (IndexOutOfRange "list")
  | JStr (String c _) => Done (JStr (String c EmptyString))
  | JStr EmptyString => Raised (IndexOutOfRange "str")
  | JDict _ => Raised (MissingKey "0")
  | _ => Raised (TypeError (type_name v) "getitem")
  end.

(** [d.get(key)] *)
Definition member (d : Dict.t json) (key : string) : json :=
  match Dict.get d key with
  | Some x => x
  | None => JNull
  end.

Section Exchange.

(** [json.dumps] *)
Variable json_dumps : json -> string.

(** [requests.post(url, headers=headers, data=data)] followed by
    [raise_for_status()] and [json()]: the parsed answer, or the exception
    one of the three raised. *)
Variable exchange : string -> Dict.t string -> string -> attempt json.

(** [str(e)] *)
Variable str : py_exception -> string.

Definition payload (prompt : string) : json :=
  let chat_history :=
    JList [ JDict [ ("role", JStr "user");
                    ("parts", JList [ JDict [ ("text", JStr prompt) ] ]) ] ] in
  JDict [ ("contents", chat_history) ].

Definition send (prompt : string) : attempt json :=
  let headers := [ ("Content-Type", "application/json") ] in
  exchange (GEMINI_API_URL ++ "?key=" ++ API_KEY) headers
           (json_dumps (payload prompt)).

(** [result["candidates"][0]["content"]] *)
Definition first_content (result : json) : attempt json :=
  candidates <~ py_item result "candidates" ;;
  candidate <~ py_first candidates ;;
  py_item candidate "content".

(** The condition of the [if], a chain of [and]: each operand is
    evaluated only when those before it are true. *)
Definition has_text_part (result : json) : attempt bool :=
  c1 <~ py_get result "candidates" JNull ;;
  if negb (truthy c1) then Done false else
  candidates <~ py_item result "candidates" ;;
  n <~ py_len candidates ;;
  if negb (0 <? n)%Z then Done false else
  candidates <~ py_item result "candidates" ;;
  candidate <~ py_first candidates ;;
  c3 <~ py_get candidate "content" JNull ;;
  if negb (truthy c3) then Done false else
  content <~ first_content result ;;
  c4 <~ py_get content "parts" JNull ;;
  if negb (truthy c4) then Done false else
  content <~ first_content result ;;
  parts <~ py_item content "parts" ;;
  n <~ py_len parts ;;
  Done (0 <? n)%Z.

(** The body of the [try]. *)
Definition try_body (prompt : string) : attempt json :=
  result <~ send prompt ;;
  b <~ has_text_part result ;;
  if b then
    content <~ first_content result ;;
    parts <~ py_item content "parts" ;;
    part <~ py_first parts ;;
    py_get part "text" (JStr "No text content found.")
  else
    Done (JStr "No valid response or content from Gemini API.").

Definition get_gemini_response (prompt : string) : list action * json :=
  match try_body prompt with
  | Done text => ([], text)
  | Raised (RequestException what) =>
      let e := RequestException what in
      ([ st_error ("🚫 API Error: " ++ str e ++ ". Please check your internet connection or try again later.") ],
       JStr ("Error calling Gemini API: " ++ str e))
  | Raised (JSONDecodeError _) =>
      ([ st_error "🚫 API Error: Could not decode response from Gemini. The API might have returned an unexpected format." ],
       JStr "Error decoding JSON response from Gemini API.")
  | Raised e =>
      ([ st_error ("🚫 An unexpected error occurred during API call: " ++ str e) ],
       JStr ("An unexpected error occurred: " ++ str e))
  end.

End Exchange.

(** An answer of the service, of the documented shape. *)
Definition sample_answer : json :=
  JDict [ ("candidates",
           JList [ JDict [ ("content",
                            JDict [ ("parts",
                                     JList [ JDict [ ("text", JStr "Cycle to work.") ] ]);
                                    ("role", JStr "model") ]);
                           ("finishReason", JStr "STOP") ] ]);
          ("usageMetadata", JDict [ ("totalTokenCount", JInt 42) ]) ].

End Gemini.

(** * Facts about binary64 arithmetic

    The calculation multiplies its inputs by the positive coefficients of
    the table and adds the products.  What is needed of these operations
    is that a product with a positive finite float is monotone in the other
    factor, that products and sums of non-negative floats are non-negative
    (in particular not NaN), and that a sum of non-negative floats is not
    below either of them.

    The primitive operations are specified by the functions [SFmul] and
    [SFadd] of the standard library, which round a mantissa with
    [binary_round_aux].  The facts are obtained in these steps:
    - the shift register of the rounding routine computes a quotient
      rounded to nearest, ties to even ([rne]);
    - [rne] is monotone and exact on multiples;
    - the result of the routine is canonical and its value is a function
      [rndV] of the value rounded, which is monotone;
    - on canonical pairs, the order of the values is the order [SFleb]
      tests;
    - the cases of signs, zeros and infinities. *)

Module RoundFacts.

Import Round.
Local Open Scope Z_scope.

Lemma iter_pos_nat {A} (f : A -> A) (n : positive) (x : A) :
  iter_pos f n x = Nat.iter (Pos.to_nat n) f x.
Proof.
  revert x. induction n as [n IH | n IH |]; intros x; cbn [iter_pos].
  - rewrite !IH, Pos2Nat.inj_xI.
    replace (S (2 * Pos.to_nat n))%nat with (Pos.to_nat n + (Pos.to_nat n + 1))%nat by lia.
    rewrite !Nat.iter_add. reflexivity.
  - rewrite !IH, Pos2Nat.inj_xO.
    replace (2 * Pos.to_nat n)%nat with (Pos.to_nat n + Pos.to_nat n)%nat by lia.
    rewrite Nat.iter_add. reflexivity.
  - reflexivity.
Qed.

(** One step of right shift, on a non-negative mantissa. *)
Lemma shr_1_nonneg m r s :
  0 <= m ->
  shr_1 (Build_shr_record m r s)
  = Build_shr_record (m / 2) (Z.odd m) (r || s).
Proof.
  intros Hm. destruct m as [| p | p]; [reflexivity | | lia].
  destruct p as [p | p |]; simpl; try reflexivity.
  - f_equal. rewrite Pos2Z.inj_xI. rewrite Z.mul_comm, Z.div_add_l by lia.
    reflexivity.
  - f_equal. rewrite Pos2Z.inj_xO. rewrite Z.mul_comm, Z.div_mul by lia.
    reflexivity.
Qed.

Lemma shr_inv_step p j mrs :
  0 <= j -> shr_inv p j mrs -> shr_inv p (j + 1) (shr_1 mrs).
Proof.
  intros Hj [Hm [u [Hu [Hp Hs]]]]. destruct mrs as [m r s].
  cbn [shr_m shr_r shr_s] in *.
  rewrite shr_1_nonneg by assumption. unfold shr_inv.
  cbn [shr_m shr_r shr_s].
  assert (H2 : 2 ^ (j + 1) = 2 * 2 ^ j) by (rewrite Z.pow_add_r by lia; lia).
  assert (Hpos : 0 < 2 ^ j) by (apply Z.pow_pos_nonneg; lia).
  split; [apply Z.div_pos; lia |].
  exists ((if r then 2 ^ j else 0) + u). rewrite H2.
  pose proof (Z.div_mod m 2 ltac:(lia)) as Hdm.
  rewrite Zmod_odd in Hdm.
  split; [destruct r; lia |]. split.
  - destruct (Z.odd m); nia.
  - destruct Hs as [Hs1 Hs2].
    destruct r, s; simpl; split; intros; try discriminate; try lia.
    all: try (exfalso; assert (E : u = 0) by lia; apply Hs2 in E; discriminate).
    all: try (specialize (Hs1 eq_refl); lia).
Qed.

Lemma shr_inv_iter p (n : nat) mrs :
  shr_inv p 0 mrs -> shr_inv p (Z.of_nat n) (Nat.iter n shr_1 mrs).
Proof.
  intros H0. induction n as [| n IH]; [exact H0 |].
  rewrite Nat2Z.inj_succ. simpl. apply shr_inv_step; [lia | exact IH].
Qed.

Lemma shr_inv_init p : 0 <= p -> shr_inv p 0 (Build_shr_record p false false).
Proof.
  intros Hp. split; [exact Hp |]. exists 0. simpl. repeat split; lia.
Qed.

(** Rounding to nearest even after the shift is [rne]. *)
Lemma shr_inv_rne p j mrs :
  0 <= j -> shr_inv p j mrs ->
  round_nearest_even (shr_m mrs) (loc_of_shr_record mrs) = rne p (2 ^ j).
Proof.
  intros Hj [Hm [u [Hu [Hp Hs]]]]. destruct mrs as [m r s].
  cbn [shr_m shr_r shr_s] in *.
  assert (Hpos : 0 < 2 ^ j) by (apply Z.pow_pos_nonneg; lia).
  set (N := 2 ^ j) in *.
  assert (Hq : p / N = m /\ p mod N = p - m * N).
  { assert (Hr : 0 <= p - m * N < N) by (destruct r; lia).
    split.
    - symmetry. apply Z.div_unique with (r := p - m * N); [left; exact Hr | lia].
    - symmetry. apply Z.mod_unique with (q := m); [left; exact Hr | lia]. }
  destruct Hq as [Hq Hr]. unfold rne. cbv zeta. rewrite Hq, Hr.
  destruct r, s; cbn [loc_of_shr_record round_nearest_even shr_m].
  - assert (u <> 0) by (intros E; apply Hs in E; discriminate).
    replace (2 * (p - m * N) ?= N) with Gt; [reflexivity |].
    symmetry. apply Z.compare_gt_iff. lia.
  - assert (u = 0) by (apply Hs; reflexivity).
    replace (2 * (p - m * N) ?= N) with Eq; [reflexivity |].
    symmetry. apply Z.compare_eq_iff. lia.
  - assert (u <> 0) by (intros E; apply Hs in E; discriminate).
    replace (2 * (p - m * N) ?= N) with Lt; [reflexivity |].
    symmetry. apply Z.compare_lt_iff. lia.
  - assert (u = 0) by (apply Hs; reflexivity).
    replace (2 * (p - m * N) ?= N) with Lt; [reflexivity |].
    symmetry. apply Z.compare_lt_iff. lia.
Qed.

Lemma rne_cases a N :
  0 < N ->
  exists q r, a = q * N + r /\ 0 <= r < N /\
    ((2 * r < N /\ rne a N = q) \/
     (2 * r > N /\ rne a N = q + 1) \/
     (2 * r = N /\ Z.even q = true /\ rne a N = q) \/
     (2 * r = N /\ Z.even q = false /\ rne a N = q + 1)).
Proof.
  intros HN. exists (a / N), (a mod N).
  pose proof (Z.div_mod a N ltac:(lia)) as Hdm.
  pose proof (Z.mod_pos_bound a N HN) as Hb.
  split; [lia |]. split; [exact Hb |].
  unfold rne. cbv zeta.
  destruct (Z.compare_spec (2 * (a mod N)) N) as [E | E | E].
  - destruct (Z.even (a / N)) eqn:Ev; [right; right; left | right; right; right]; auto.
  - left. auto.
  - right; left. split; [lia | reflexivity].
Qed.

Lemma rne_mono a b N : 0 < N -> a <= b -> rne a N <= rne b N.
Proof.
  intros HN Hab.
  destruct (rne_cases a N HN) as [qa [ra [Ha [Hra Ca]]]].
  destruct (rne_cases b N HN) as [qb [rb [Hb [Hrb Cb]]]].
  assert (Hq : qa <= qb) by nia.
  destruct (Z.eq_dec qa qb) as [E | E].
  - subst qb. assert (ra <= rb) by lia.
    destruct Ca as [[? ->] | [[? ->] | [[? [Ea ->]] | [? [Ea ->]]]]];
    destruct Cb as [[? ->] | [[? ->] | [[? [Eb ->]] | [? [Eb ->]]]]];
    try lia; congruence.
  - assert (qa + 1 <= qb) by lia.
    destruct Ca as [[? ->] | [[? ->] | [[? [Ea ->]] | [? [Ea ->]]]]];
    destruct Cb as [[? ->] | [[? ->] | [[? [Eb ->]] | [? [Eb ->]]]]];
    lia.
Qed.

Lemma rne_exact k N : 0 < N -> rne (k * N) N = k.
Proof.
  intros HN. unfold rne. cbv zeta.
  rewrite Z.div_mul by lia. rewrite Z.mod_mul by lia.
  rewrite (proj2 (Z.compare_lt_iff _ _)) by lia. reflexivity.
Qed.

Lemma rne_scale a N c : 0 < N -> 0 < c -> rne (a * c) (N * c) = rne a N.
Proof.
  intros HN Hc. unfold rne. cbv zeta.
  rewrite Z.div_mul_cancel_r by lia.
  rewrite Z.mul_mod_distr_r by lia.
  assert (E : (2 * (a mod N * c) ?= N * c) = (2 * (a mod N) ?= N)).
  { destruct (Z.compare_spec (2 * (a mod N)) N) as [H | H | H].
    - apply Z.compare_eq_iff. nia.
    - apply Z.compare_lt_iff. nia.
    - apply Z.compare_gt_iff. nia. }
  rewrite E. reflexivity.
Qed.

Lemma rne_ge k a N : 0 < N -> k * N <= a -> k <= rne a N.
Proof.
  intros HN H. rewrite <- (rne_exact k N HN). apply rne_mono; assumption.
Qed.

Lemma rne_le k a N : 0 < N -> a <= k * N -> rne a N <= k.
Proof.
  intros HN H. rewrite <- (rne_exact k N HN). apply rne_mono; assumption.
Qed.

(** Powers of two *)
Lemma pow2_pos j : 0 <= j -> 0 < 2 ^ j.
Proof. intros. apply Z.pow_pos_nonneg; lia. Qed.

Lemma pow2_add a b : 0 <= a -> 0 <= b -> 2 ^ (a + b) = 2 ^ a * 2 ^ b.
Proof. intros. apply Z.pow_add_r; assumption. Qed.

Lemma pow2_le a b : 0 <= a <= b -> 2 ^ a <= 2 ^ b.
Proof. intros. apply Z.pow_le_mono_r; lia. Qed.

Lemma pow2_lt_inv a b : 0 <= b -> 2 ^ a < 2 ^ b -> a < b.
Proof. intros Hb H. apply (Z.pow_lt_mono_r_iff 2); [lia | exact Hb | exact H]. Qed.

(** Number of binary digits *)
Lemma digits2_pos_bounds p :
  2 ^ (Zpos (digits2_pos p) - 1) <= Zpos p < 2 ^ Zpos (digits2_pos p).
Proof.
  induction p as [p IH | p IH |]; cbn [digits2_pos].
  - rewrite Pos2Z.inj_succ.
    replace (Z.succ (Zpos (digits2_pos p)) - 1) with ((Zpos (digits2_pos p) - 1) + 1) by lia.
    rewrite Z.pow_succ_r by lia. rewrite (pow2_add _ 1) by lia.
    change (2 ^ 1) with 2. lia.
  - rewrite Pos2Z.inj_succ.
    replace (Z.succ (Zpos (digits2_pos p)) - 1) with ((Zpos (digits2_pos p) - 1) + 1) by lia.
    rewrite Z.pow_succ_r by lia. rewrite (pow2_add _ 1) by lia.
    change (2 ^ 1) with 2. lia.
  - simpl. lia.
Qed.

Lemma Zdigits2_bounds m :
  0 < m -> 2 ^ (Zdigits2 m - 1) <= m < 2 ^ Zdigits2 m.
Proof.
  intros Hm. destruct m as [| p | p]; try lia. apply digits2_pos_bounds.
Qed.

Lemma Zdigits2_pos m : 0 < m -> 0 < Zdigits2 m.
Proof. intros Hm. destruct m; simpl; lia. Qed.

(** [Zdigits2 m] is the only [d] with [2^(d-1) <= m < 2^d]. *)
Lemma Zdigits2_unique m d :
  0 < d -> 2 ^ (d - 1) <= m < 2 ^ d -> Zdigits2 m = d.
Proof.
  intros Hd [H1 H2].
  assert (Hm : 0 < m) by (pose proof (pow2_pos (d - 1)); lia).
  pose proof (Zdigits2_bounds m Hm) as [H3 H4].
  pose proof (Zdigits2_pos m Hm) as H5.
  assert (d - 1 < Zdigits2 m) by (apply pow2_lt_inv; lia).
  assert (Zdigits2 m - 1 < d) by (apply pow2_lt_inv; lia).
  lia.
Qed.

Lemma Zdigits2_mono a b : 0 < a <= b -> Zdigits2 a <= Zdigits2 b.
Proof.
  intros [Ha Hab].
  pose proof (Zdigits2_bounds a Ha) as [H1 H2].
  pose proof (Zdigits2_bounds b ltac:(lia)) as [H3 H4].
  pose proof (Zdigits2_pos b ltac:(lia)).
  assert (Zdigits2 a - 1 < Zdigits2 b) by (apply pow2_lt_inv; lia).
  lia.
Qed.

Lemma Zdigits2_mul_pow2 m j :
  0 < m -> 0 <= j -> Zdigits2 (m * 2 ^ j) = Zdigits2 m + j.
Proof.
  intros Hm Hj.
  pose proof (Zdigits2_bounds m Hm) as [H1 H2].
  pose proof (Zdigits2_pos m Hm) as H3.
  pose proof (pow2_pos j Hj) as H4.
  apply Zdigits2_unique; [lia |].
  replace (Zdigits2 m + j - 1) with ((Zdigits2 m - 1) + j) by lia.
  rewrite !pow2_add by lia. nia.
Qed.

Lemma fexp64_eq k : fexp64 k = Z.max (k - 53) (-1074).
Proof. reflexivity. Qed.

Lemma binary_round_aux_eq s mx ex lx :
  binary_round_aux prec emax s mx ex lx
  = let '(mrs', e') := shr_fexp prec emax mx ex lx in
    let '(mrs'', e'') :=
      shr_fexp prec emax
        (round_nearest_even (shr_m mrs') (loc_of_shr_record mrs')) e' loc_Exact in
    sf_out s (shr_m mrs'') e''.
Proof. reflexivity. Qed.

Lemma shr_fexp_exact m e :
  0 <= m ->
  exists mrs,
    shr_fexp prec emax m e loc_Exact
    = (mrs, e + Z.max (fexp64 (Zdigits2 m + e) - e) 0)
    /\ shr_inv m (Z.max (fexp64 (Zdigits2 m + e) - e) 0) mrs.
Proof.
  intros Hm. unfold shr_fexp, shr. fold (fexp64 (Zdigits2 m + e)).
  cbn [shr_record_of_loc].
  destruct (fexp64 (Zdigits2 m + e) - e) as [| n | n] eqn:En.
  - eexists. split; [rewrite Z.add_0_r; reflexivity |].
    apply shr_inv_init; exact Hm.
  - eexists. split; [rewrite Z.max_l by lia; reflexivity |].
    rewrite Z.max_l by lia. rewrite iter_pos_nat.
    rewrite <- (positive_nat_Z n). apply shr_inv_iter.
    apply shr_inv_init; exact Hm.
  - eexists. split; [rewrite Z.max_r by lia; rewrite Z.add_0_r; reflexivity |].
    rewrite Z.max_r by lia. apply shr_inv_init; exact Hm.
Qed.

Lemma shr_inv_0 m mrs : shr_inv m 0 mrs -> shr_m mrs = m.
Proof.
  intros [Hm [u [Hu [H _]]]]. change (2 ^ 0) with 1 in *.
  destruct (shr_r mrs); lia.
Qed.

Lemma shr_inv_zero j mrs : 0 <= j -> shr_inv 0 j mrs -> shr_m mrs = 0.
Proof.
  intros Hj [Hm [u [Hu [H _]]]]. pose proof (pow2_pos j Hj).
  destruct (shr_r mrs); nia.
Qed.

Lemma Zdigits2_le m k : 0 < m -> m < 2 ^ k -> Zdigits2 m <= k.
Proof.
  intros Hm H. pose proof (Zdigits2_bounds m Hm) as [H1 _].
  pose proof (Zdigits2_pos m Hm).
  destruct (Z_lt_le_dec k 0) as [Hk | Hk].
  - rewrite Z.pow_neg_r in H by lia. lia.
  - assert (Zdigits2 m - 1 < k) by (apply pow2_lt_inv; lia). lia.
Qed.

(** Rounding of a positive mantissa that needs no left shift. *)
Lemma binary_round_aux_spec s p e :
  let e1 := fexp64 (Zdigits2 (Zpos p) + e) in
  e <= e1 ->
  exists m2 e2,
    binary_round_aux prec emax s (Zpos p) e loc_Exact = sf_out s m2 e2
    /\ 0 <= m2 /\ e1 <= e2
    /\ m2 * 2 ^ (e2 - e1) = rne (Zpos p) (2 ^ (e1 - e))
    /\ (m2 = 0 \/ fexp64 (Zdigits2 m2 + e2) = e2).
Proof.
  intros e1 Hn. rewrite binary_round_aux_eq.
  destruct (shr_fexp_exact (Zpos p) e ltac:(lia)) as [mrs1 [E1 I1]].
  fold e1 in E1, I1. rewrite Z.max_l in E1, I1 by lia.
  replace (e + (e1 - e)) with e1 in E1 by lia.
  rewrite E1.
  assert (Hj : 0 <= e1 - e) by lia.
  rewrite (shr_inv_rne _ _ _ Hj I1).
  set (m1 := rne (Zpos p) (2 ^ (e1 - e))).
  pose proof (pow2_pos (e1 - e) ltac:(lia)) as HN.
  assert (Hm1 : 0 <= m1) by (unfold m1; apply rne_ge; [exact HN | lia]).
  destruct (shr_fexp_exact m1 e1 Hm1) as [mrs2 [E2 I2]].
  pose proof (digits2_pos_bounds p) as [Hd1 Hd2].
  change (Zpos (digits2_pos p)) with (Zdigits2 (Zpos p)) in Hd1, Hd2.
  assert (Hdpos : 0 < Zdigits2 (Zpos p)) by (simpl; lia).
  set (d := Zdigits2 (Zpos p)) in *.
  assert (He1 : e1 = Z.max (d + e - 53) (-1074)) by (unfold e1; apply fexp64_eq).
  (* bounds on the rounded mantissa *)
  assert (Hb : m1 <= 2 ^ 53 /\ (e1 = d + e - 53 -> 2 ^ 52 <= m1)
               /\ (e1 <> d + e - 53 -> m1 <= 2 ^ 52)).
  { split; [| split].
    - apply rne_le; [exact HN |].
      rewrite <- pow2_add by lia.
      apply Z.lt_le_incl, Z.lt_le_trans with (1 := Hd2).
      apply pow2_le. lia.
    - intros E. apply rne_ge; [exact HN |].
      rewrite <- pow2_add by lia.
      replace (52 + (e1 - e)) with (d - 1) by lia. exact Hd1.
    - intros E. apply rne_le; [exact HN |].
      rewrite <- pow2_add by lia.
      apply Z.lt_le_incl, Z.lt_le_trans with (1 := Hd2).
      apply pow2_le. lia. }
  destruct Hb as [Hb1 [Hb2 Hb3]].
  destruct (Z.eq_dec m1 0) as [Z1 | NZ1].
  - (* rounded to zero *)
    rewrite E2. rewrite Z1 in I2 |- *.
    exists 0, (e1 + Z.max (fexp64 (Zdigits2 0 + e1) - e1) 0).
    rewrite (shr_inv_zero _ _ (Z.le_max_r _ 0) I2).
    repeat split; lia.
  - destruct (Z.eq_dec m1 (2 ^ 53)) as [C | NC].
    + (* the mantissa rounded up to 2^53 *)
      assert (E : e1 = d + e - 53).
      { destruct (Z.eq_dec e1 (d + e - 53)); [assumption |].
        specialize (Hb3 n). change (2 ^ 52) with 4503599627370496 in Hb3.
        change (2 ^ 53) with 9007199254740992 in C. lia. }
      assert (Dg : Zdigits2 m1 = 54) by (rewrite C; reflexivity).
      rewrite Dg in E2, I2.
      assert (F : fexp64 (54 + e1) - e1 = 1) by (rewrite fexp64_eq; lia).
      rewrite F in E2, I2. change (Z.max 1 0) with 1 in E2, I2.
      exists (2 ^ 52), (e1 + 1).
      assert (M : shr_m mrs2 = 2 ^ 52).
      { destruct I2 as [Hm [u [Hu [H _]]]]. rewrite C in H.
        change (2 ^ 1) with 2 in *. change (2 ^ 53) with 9007199254740992 in H.
        change (2 ^ 52) with 4503599627370496.
        destruct (shr_r mrs2); lia. }
      rewrite E2, M. split; [reflexivity |].
      split; [change (2 ^ 52) with 4503599627370496; lia |].
      split; [lia |]. split.
      * replace (e1 + 1 - e1) with 1 by lia. fold m1. rewrite C. reflexivity.
      * right. change (Zdigits2 (2 ^ 52)) with 53. rewrite fexp64_eq. lia.
    + (* no renormalisation *)
      assert (Hlt : 0 < m1 < 2 ^ 53) by lia.
      assert (Dle : Zdigits2 m1 <= 53) by (apply Zdigits2_le; lia).
      assert (F : fexp64 (Zdigits2 m1 + e1) = e1).
      { rewrite fexp64_eq.
        destruct (Z.eq_dec e1 (d + e - 53)) as [E | E].
        - assert (Zdigits2 m1 = 53).
          { apply Zdigits2_unique; [lia |]. specialize (Hb2 E).
            change (53 - 1) with 52. lia. }
          lia.
        - lia. }
      rewrite F in E2, I2. replace (e1 - e1) with 0 in E2, I2 by lia.
      change (Z.max 0 0) with 0 in E2, I2.
      replace (e1 + 0) with e1 in E2 by lia.
      exists m1, e1. rewrite E2, (shr_inv_0 _ _ I2).
      split; [reflexivity |]. split; [lia |]. split; [lia |]. split.
      * replace (e1 - e1) with 0 by lia. change (2 ^ 0) with 1. lia.
      * right. exact F.
Qed.

Lemma rndV_mono lo V W :
  0 <= lo -> 0 < V <= W -> rndV lo V <= rndV lo W.
Proof.
  intros Hlo [HV HVW]. unfold rndV. cbv zeta.
  pose proof (Zdigits2_mono V W (conj HV HVW)) as Hd.
  pose proof (Zdigits2_bounds V HV) as [_ HV2].
  pose proof (Zdigits2_bounds W ltac:(lia)) as [HW1 _].
  pose proof (Zdigits2_pos V HV) as HdV.
  set (dV := Zdigits2 V) in *. set (dW := Zdigits2 W) in *.
  set (EV := Z.max (dV - 53) lo). set (EW := Z.max (dW - 53) lo).
  assert (HEV : 0 <= EV) by lia. assert (HEW : 0 <= EW) by lia.
  pose proof (pow2_pos EV HEV) as HNV. pose proof (pow2_pos EW HEW) as HNW.
  destruct (Z.eq_dec EV EW) as [E | NE].
  - rewrite E. apply Z.mul_le_mono_nonneg_r; [lia |].
    apply rne_mono; assumption.
  - assert (HE : EV < EW) by lia.
    assert (HEW' : EW = dW - 53) by lia.
    assert (HdVW : dV <= dW - 1) by lia.
    apply Z.le_trans with (2 ^ (dW - 1)).
    + replace (dW - 1) with ((dW - 1 - EV) + EV) by lia.
      rewrite pow2_add by lia.
      apply Z.mul_le_mono_nonneg_r; [lia |].
      apply rne_le; [exact HNV |].
      rewrite <- pow2_add by lia.
      apply Z.lt_le_incl, Z.lt_le_trans with (1 := HV2).
      apply pow2_le. lia.
    + replace (dW - 1) with (52 + EW) by lia.
      rewrite pow2_add by lia.
      apply Z.mul_le_mono_nonneg_r; [lia |].
      apply rne_ge; [exact HNW |].
      rewrite <- pow2_add by lia.
      replace (52 + EW) with (dW - 1) by lia. exact HW1.
Qed.

(** The value of the rounded result, in units of [2^b]. *)
Lemma binary_round_aux_value s p e b :
  b <= e -> b <= -1074 ->
  e <= fexp64 (Zdigits2 (Zpos p) + e) ->
  exists m2 e2,
    binary_round_aux prec emax s (Zpos p) e loc_Exact = sf_out s m2 e2
    /\ 0 <= m2 /\ -1074 <= e2
    /\ (m2 = 0 \/ canonical m2 e2)
    /\ m2 * 2 ^ (e2 - b) = rndV (-1074 - b) (Zpos p * 2 ^ (e - b)).
Proof.
  intros Hbe Hb Hn.
  destruct (binary_round_aux_spec s p e Hn) as [m2 [e2 [Hr [Hm2 [He2 [Hv Hc]]]]]].
  exists m2, e2. split; [exact Hr |]. split; [exact Hm2 |].
  set (e1 := fexp64 (Zdigits2 (Zpos p) + e)) in *.
  assert (He1 : e1 = Z.max (Zdigits2 (Zpos p) + e - 53) (-1074))
    by (unfold e1; apply fexp64_eq).
  split; [lia |]. split; [exact Hc |].
  unfold rndV. cbv zeta.
  rewrite Zdigits2_mul_pow2 by lia.
  replace (Z.max (Zdigits2 (Zpos p) + (e - b) - 53) (-1074 - b)) with (e1 - b) by lia.
  replace (e1 - b) with ((e1 - e) + (e - b)) at 1 by lia.
  rewrite pow2_add by lia.
  rewrite rne_scale by (apply pow2_pos; lia).
  rewrite <- Hv.
  replace (e2 - b) with ((e2 - e1) + (e1 - b)) by lia.
  rewrite pow2_add by lia. lia.
Qed.

Lemma canonical_digits m e :
  0 < m -> canonical m e ->
  -1074 <= e /\ Zdigits2 m <= 53 /\ (-1074 < e -> Zdigits2 m = 53).
Proof.
  unfold canonical. rewrite fexp64_eq. intros Hm H. lia.
Qed.

(** On canonical pairs the order of the values is the lexicographic order
    of exponent and mantissa. *)
Lemma canonical_lt_exp m e m' e' b :
  0 < m -> 0 < m' -> canonical m e -> canonical m' e' ->
  b <= e -> e < e' ->
  m * 2 ^ (e - b) < m' * 2 ^ (e' - b).
Proof.
  intros Hm Hm' Hc Hc' Hb He.
  destruct (canonical_digits m e Hm Hc) as [H1 [H2 _]].
  destruct (canonical_digits m' e' Hm' Hc') as [_ [_ H3]].
  pose proof (Zdigits2_bounds m Hm) as [_ B1].
  pose proof (Zdigits2_bounds m' Hm') as [B2 _].
  rewrite H3 in B2 by lia. change (53 - 1) with 52 in B2.
  assert (B1' : m < 2 ^ 53).
  { apply Z.lt_le_trans with (1 := B1). apply pow2_le.
    pose proof (Zdigits2_pos m Hm). lia. }
  pose proof (pow2_pos (e - b) ltac:(lia)) as P.
  replace (e' - b) with ((e' - e - 1) + (1 + (e - b))) by lia.
  rewrite (pow2_add (e' - e - 1)) by lia. rewrite (pow2_add 1) by lia.
  pose proof (pow2_pos (e' - e - 1) ltac:(lia)) as P'.
  change (2 ^ 1) with 2.
  change (2 ^ 53) with (2 * 2 ^ 52) in B1'.
  set (A := 2 ^ 52) in *.
  set (X := 2 ^ (e - b)) in *. set (Y := 2 ^ (e' - e - 1)) in *.
  assert (m * X < 2 * A * X) by nia.
  assert (A * X <= m' * X) by nia.
  assert (m' * X * 1 <= m' * X * Y) by (apply Z.mul_le_mono_nonneg_l; nia).
  nia.
Qed.

Lemma canonical_le m e m' e' b :
  0 < m -> 0 < m' -> canonical m e -> canonical m' e' ->
  b <= e -> b <= e' ->
  m * 2 ^ (e - b) <= m' * 2 ^ (e' - b) ->
  e < e' \/ (e = e' /\ m <= m').
Proof.
  intros Hm Hm' Hc Hc' Hb Hb' H.
  destruct (Z.lt_trichotomy e e') as [L | [E | G]].
  - left; exact L.
  - right. split; [exact E |]. subst e'.
    pose proof (pow2_pos (e - b) ltac:(lia)). nia.
  - exfalso.
    pose proof (canonical_lt_exp m' e' m e b Hm' Hm Hc' Hc Hb' G). lia.
Qed.

Lemma canonical_le_inv m e m' e' b :
  0 < m -> 0 < m' -> canonical m e -> canonical m' e' ->
  b <= e -> b <= e' ->
  e < e' \/ (e = e' /\ m <= m') ->
  m * 2 ^ (e - b) <= m' * 2 ^ (e' - b).
Proof.
  intros Hm Hm' Hc Hc' Hb Hb' [L | [E L]].
  - apply Z.lt_le_incl. apply canonical_lt_exp; assumption.
  - subst e'. pose proof (pow2_pos (e - b) ltac:(lia)). nia.
Qed.

Lemma SFleb_finite_pos m e m' e' :
  SFleb (S754_finite false m e) (S754_finite false m' e') = true
  <-> (e < e' \/ (e = e' /\ Zpos m <= Zpos m')).
Proof.
  unfold SFleb, SFcompare.
  destruct (Z.compare_spec e e') as [E | L | G].
  - replace (Pos.compare_cont Eq m m') with (Pos.compare m m') by reflexivity.
    destruct (Pos.compare_spec m m') as [E' | L' | G'].
    + split; [intros _; right; split; [exact E | subst; lia] | reflexivity].
    + split; [intros _; right; split; [exact E | lia] | reflexivity].
    + split; [discriminate | intros [? | [_ ?]]; lia].
  - split; [intros _; left; exact L | reflexivity].
  - split; [discriminate | intros [? | [? _]]; lia].
Qed.

Lemma sf_out_leb m e m' e' b :
  0 <= m -> 0 <= m' ->
  (m = 0 \/ canonical m e) -> (m' = 0 \/ canonical m' e') ->
  b <= e -> b <= e' ->
  m * 2 ^ (e - b) <= m' * 2 ^ (e' - b) ->
  SFleb (sf_out false m e) (sf_out false m' e') = true.
Proof.
  intros Hm Hm' Hc Hc' Hb Hb' Hv.
  destruct m as [| m | m]; [| | lia].
  - destruct m' as [| m' | m']; [reflexivity | | lia].
    cbn [sf_out]. destruct (e' <=? emax - prec); reflexivity.
  - destruct m' as [| m' | m']; [| | lia].
    + exfalso. pose proof (pow2_pos (e - b) ltac:(lia)). nia.
    + destruct Hc as [Hc | Hc]; [discriminate |].
      destruct Hc' as [Hc' | Hc']; [discriminate |].
      pose proof (canonical_le _ _ _ _ b (Pos2Z.is_pos m) (Pos2Z.is_pos m')
                    Hc Hc' Hb Hb' Hv) as Hl.
      cbn [sf_out].
      destruct (Z.leb_spec e' (emax - prec)) as [L' | G'].
      * rewrite (proj2 (Z.leb_le e (emax - prec))) by lia.
        apply SFleb_finite_pos. exact Hl.
      * destruct (e <=? emax - prec); reflexivity.
Qed.

Lemma valid_finite s m e :
  valid_binary (S754_finite s m e) = true ->
  canonical (Zpos m) e /\ e <= 971.
Proof.
  unfold valid_binary, SpecFloat.valid_binary, bounded, canonical_mantissa.
  intros H. apply andb_prop in H. destruct H as [H1 H2].
  apply Z.eqb_eq in H1. apply Z.leb_le in H2.
  split; [exact H1 | exact H2].
Qed.

Lemma Zdigits2_mul a b :
  0 < a -> 0 < b -> Zdigits2 a + Zdigits2 b - 1 <= Zdigits2 (a * b).
Proof.
  intros Ha Hb.
  pose proof (Zdigits2_bounds a Ha) as [A1 _].
  pose proof (Zdigits2_bounds b Hb) as [B1 _].
  pose proof (Zdigits2_bounds (a * b) ltac:(nia)) as [_ C2].
  pose proof (Zdigits2_pos a Ha). pose proof (Zdigits2_pos b Hb).
  pose proof (Zdigits2_pos (a * b) ltac:(nia)).
  assert (L : 2 ^ (Zdigits2 a - 1 + (Zdigits2 b - 1)) <= a * b).
  { rewrite pow2_add by lia.
    pose proof (pow2_pos (Zdigits2 a - 1) ltac:(lia)).
    pose proof (pow2_pos (Zdigits2 b - 1) ltac:(lia)). nia. }
  assert (Zdigits2 a - 1 + (Zdigits2 b - 1) < Zdigits2 (a * b))
    by (apply pow2_lt_inv; lia).
  lia.
Qed.

(** The product of two canonical mantissas is never shifted to the left. *)
Lemma mul_no_left_shift mx ex mc ec :
  canonical (Zpos mx) ex -> canonical (Zpos mc) ec ->
  ex + ec <= fexp64 (Zdigits2 (Zpos (mx * mc)) + (ex + ec)).
Proof.
  intros Hx Hc.
  destruct (canonical_digits _ _ (Pos2Z.is_pos mx) Hx) as [X1 [X2 X3]].
  destruct (canonical_digits _ _ (Pos2Z.is_pos mc) Hc) as [C1 [C2 C3]].
  pose proof (Zdigits2_mul (Zpos mx) (Zpos mc) (Pos2Z.is_pos _) (Pos2Z.is_pos _)) as D.
  pose proof (Zdigits2_pos (Zpos mx) (Pos2Z.is_pos _)).
  pose proof (Zdigits2_pos (Zpos mc) (Pos2Z.is_pos _)).
  rewrite Pos2Z.inj_mul. rewrite fexp64_eq. lia.
Qed.

Lemma SFmul_finite_eq s mx ex mc ec :
  SF64mul (S754_finite s mx ex) (S754_finite false mc ec)
  = binary_round_aux prec emax s (Zpos (mx * mc)) (ex + ec) loc_Exact.
Proof. destruct s; reflexivity. Qed.

Lemma binary_round_aux_opp s m e l :
  binary_round_aux prec emax (negb s) m e l
  = SFopp (binary_round_aux prec emax s m e l).
Proof.
  rewrite !binary_round_aux_eq.
  destruct (shr_fexp prec emax m e l) as [mrs1 e1].
  destruct (shr_fexp prec emax _ e1 loc_Exact) as [mrs2 e2].
  destruct (shr_m mrs2); cbn [sf_out]; try reflexivity.
  destruct (e2 <=? emax - prec); reflexivity.
Qed.

Lemma SFleb_opp u v : SFleb (SFopp u) (SFopp v) = SFleb v u.
Proof.
  unfold SFleb.
  destruct u as [su | su | | su mu eu], v as [sv | sv | | sv mv ev];
    try reflexivity;
    try (destruct su; reflexivity);
    try (destruct sv; reflexivity);
    try (destruct su, sv; reflexivity).
  destruct su, sv; try reflexivity; cbn [SFopp negb SFcompare].
  - rewrite (Z.compare_antisym eu ev).
    destruct (eu ?= ev); try reflexivity. cbn [CompOpp].
    change (Pos.compare_cont Eq mv mu) with (Pos.compare mv mu).
    change (Pos.compare_cont Eq mu mv) with (Pos.compare mu mv).
    rewrite (Pos.compare_antisym mu mv).
    destruct (mu ?= mv)%positive; reflexivity.
  - rewrite (Z.compare_antisym eu ev).
    destruct (eu ?= ev); try reflexivity. cbn [CompOpp].
    change (Pos.compare_cont Eq mv mu) with (Pos.compare mv mu).
    change (Pos.compare_cont Eq mu mv) with (Pos.compare mu mv).
    rewrite (Pos.compare_antisym mu mv).
    destruct (mu ?= mv)%positive; reflexivity.
Qed.

Lemma sf_out_nonneg m e : 0 <= m -> SF_nonneg (sf_out false m e) = true.
Proof.
  intros Hm. destruct m; [reflexivity | | lia].
  cbn [sf_out]. destruct (e <=? emax - prec); reflexivity.
Qed.

Lemma sf_out_nonpos m e : 0 <= m -> SF_nonpos (sf_out true m e) = true.
Proof.
  intros Hm. destruct m; [reflexivity | | lia].
  cbn [sf_out]. destruct (e <=? emax - prec); reflexivity.
Qed.

Lemma SF_nonpos_nonneg_leb u v :
  SF_nonpos u = true -> SF_nonneg v = true -> SFleb u v = true.
Proof.
  unfold SF_nonpos, SF_nonneg, SFleb.
  destruct u as [su | su | | su mu eu], v as [sv | sv | | sv mv ev];
    cbn [SFcompare];
    try (destruct su); try (destruct sv); intros; try discriminate; reflexivity.
Qed.

Lemma SF_nonneg_leb_inf v :
  SF_nonneg v = true -> SFleb v (S754_infinity false) = true.
Proof.
  unfold SF_nonneg, SFleb.
  destruct v as [sv | sv | | sv mv ev]; cbn [SFcompare];
    try (destruct sv); intros; try discriminate; reflexivity.
Qed.

(** Rounding a positive mantissa never gives a NaN or changes the sign. *)
Lemma binary_round_aux_form s p e :
  exists m2 e2,
    binary_round_aux prec emax s (Zpos p) e loc_Exact = sf_out s m2 e2
    /\ 0 <= m2.
Proof.
  rewrite binary_round_aux_eq.
  destruct (shr_fexp_exact (Zpos p) e ltac:(lia)) as [mrs1 [E1 I1]].
  rewrite E1.
  assert (H1 : 0 <= round_nearest_even (shr_m mrs1) (loc_of_shr_record mrs1)).
  { destruct I1 as [H1 _].
    destruct (loc_of_shr_record mrs1) as [| []]; cbn [round_nearest_even];
      try lia.
    destruct (Z.even (shr_m mrs1)); lia. }
  destruct (shr_fexp_exact _ (e + Z.max (fexp64 (Zdigits2 (Zpos p) + e) - e) 0) H1)
    as [mrs2 [E2 I2]].
  rewrite E2. do 2 eexists. split; [reflexivity |]. destruct I2 as [H2 _]. exact H2.
Qed.

Lemma SFmul_pos_mono mx ex my ey mc ec :
  canonical (Zpos mx) ex -> canonical (Zpos my) ey -> canonical (Zpos mc) ec ->
  SFleb (S754_finite false mx ex) (S754_finite false my ey) = true ->
  SFleb (SF64mul (S754_finite false mx ex) (S754_finite false mc ec))
        (SF64mul (S754_finite false my ey) (S754_finite false mc ec)) = true.
Proof.
  intros Hx Hy Hc Hle. rewrite !SFmul_finite_eq.
  destruct (canonical_digits _ _ (Pos2Z.is_pos mx) Hx) as [X1 _].
  destruct (canonical_digits _ _ (Pos2Z.is_pos my) Hy) as [Y1 _].
  set (b := -1074 + Z.min ec 0).
  destruct (binary_round_aux_value false (mx * mc) (ex + ec) b
              ltac:(lia) ltac:(lia) (mul_no_left_shift _ _ _ _ Hx Hc))
    as [m2 [e2 [-> [Hm2 [He2 [Hc2 Hv2]]]]]].
  destruct (binary_round_aux_value false (my * mc) (ey + ec) b
              ltac:(lia) ltac:(lia) (mul_no_left_shift _ _ _ _ Hy Hc))
    as [m3 [e3 [-> [Hm3 [He3 [Hc3 Hv3]]]]]].
  apply sf_out_leb with (b := b); try assumption; try lia.
  rewrite Hv2, Hv3. apply rndV_mono; [lia |].
  pose proof (pow2_pos (ex + ec - b) ltac:(lia)).
  split; [nia |].
  apply SFleb_finite_pos in Hle.
  pose proof (canonical_le_inv _ _ _ _ (-1074) (Pos2Z.is_pos mx) (Pos2Z.is_pos my)
                Hx Hy X1 Y1 Hle) as Hv.
  replace (ex + ec - b) with ((ex - -1074) + (ec - 1074 - b)) by lia.
  replace (ey + ec - b) with ((ey - -1074) + (ec - 1074 - b)) by lia.
  rewrite !pow2_add by lia.
  pose proof (pow2_pos (ec - 1074 - b) ltac:(lia)).
  rewrite !Pos2Z.inj_mul.
  set (P := 2 ^ (ec - 1074 - b)) in *.
  set (X := Zpos mx * 2 ^ (ex - -1074)) in *.
  set (Y := Zpos my * 2 ^ (ey - -1074)) in *.
  replace (Zpos mx * Zpos mc * (2 ^ (ex - -1074) * P)) with (X * (Zpos mc * P)) by (unfold X; ring).
  replace (Zpos my * Zpos mc * (2 ^ (ey - -1074) * P)) with (Y * (Zpos mc * P)) by (unfold Y; ring).
  apply Z.mul_le_mono_nonneg_r; [nia | exact Hv].
Qed.

Lemma SFmul_finite_form s mx ex mc ec :
  exists m2 e2,
    SF64mul (S754_finite s mx ex) (S754_finite false mc ec) = sf_out s m2 e2
    /\ 0 <= m2.
Proof. rewrite SFmul_finite_eq. apply binary_round_aux_form. Qed.

Lemma SFmul_nonneg x mc ec :
  SF_nonneg x = true ->
  SF_nonneg (SF64mul x (S754_finite false mc ec)) = true.
Proof.
  destruct x as [s | s | | s mx ex]; try (destruct s); try discriminate;
    try reflexivity.
  intros _. destruct (SFmul_finite_form false mx ex mc ec) as [m2 [e2 [-> H]]].
  apply sf_out_nonneg; exact H.
Qed.

Lemma SFmul_nonpos x mc ec :
  SF_nonpos x = true ->
  SF_nonpos (SF64mul x (S754_finite false mc ec)) = true.
Proof.
  destruct x as [s | s | | s mx ex]; try (destruct s); try discriminate;
    try reflexivity.
  intros _. destruct (SFmul_finite_form true mx ex mc ec) as [m2 [e2 [-> H]]].
  apply sf_out_nonpos; exact H.
Qed.

Lemma SFmul_opp x mc ec :
  SF64mul (SFopp x) (S754_finite false mc ec)
  = SFopp (SF64mul x (S754_finite false mc ec)).
Proof.
  destruct x as [s | s | | s mx ex]; try (destruct s; reflexivity);
    try reflexivity.
  cbn [SFopp]. rewrite !SFmul_finite_eq. apply binary_round_aux_opp.
Qed.

Lemma SFopp_involutive x : SFopp (SFopp x) = x.
Proof. destruct x as [s | s | | s m e]; try destruct s; reflexivity. Qed.

Lemma valid_binary_opp x :
  valid_binary (SFopp x) = valid_binary x.
Proof. destruct x; reflexivity. Qed.

(** Strictly positive arguments. *)
Lemma SFmul_mono_pos x y mc ec :
  valid_binary x = true -> valid_binary y = true ->
  valid_binary (S754_finite false mc ec) = true ->
  SFltb (S754_zero false) x = true ->
  SFleb x y = true ->
  SFleb (SF64mul x (S754_finite false mc ec))
        (SF64mul y (S754_finite false mc ec)) = true.
Proof.
  intros Vx Vy Vc Px Hle.
  destruct (valid_finite _ _ _ Vc) as [Hc _].
  destruct x as [sx | sx | | sx mx ex]; try discriminate;
    destruct sx; try discriminate;
    destruct y as [sy | sy | | sy my ey]; try discriminate;
    try (destruct sy; try discriminate).
  - reflexivity.
  - apply SF_nonneg_leb_inf. apply SFmul_nonneg. reflexivity.
  - destruct (valid_finite _ _ _ Vx) as [Hx _].
    destruct (valid_finite _ _ _ Vy) as [Hy _].
    apply SFmul_pos_mono; assumption.
Qed.

Theorem SFmul_mono x y mc ec :
  valid_binary x = true -> valid_binary y = true ->
  valid_binary (S754_finite false mc ec) = true ->
  SFleb x y = true ->
  SFleb (SF64mul x (S754_finite false mc ec))
        (SF64mul y (S754_finite false mc ec)) = true.
Proof.
  intros Vx Vy Vc Hle.
  destruct (SFltb (S754_zero false) x) eqn:Px.
  - apply SFmul_mono_pos; assumption.
  - destruct (SFltb y (S754_zero false)) eqn:Ny.
    + (* both negative: reflect *)
      rewrite <- (SFopp_involutive x), <- (SFopp_involutive y).
      rewrite !(SFmul_opp (SFopp _)). rewrite SFleb_opp.
      apply SFmul_mono_pos.
      * rewrite valid_binary_opp; exact Vy.
      * rewrite valid_binary_opp; exact Vx.
      * exact Vc.
      * destruct y as [s | s | | s m e]; try destruct s; try discriminate;
          reflexivity.
      * rewrite SFleb_opp. exact Hle.
    + apply SF_nonpos_nonneg_leb.
      * apply SFmul_nonpos.
        destruct x as [s | s | | s m e]; try destruct s; try discriminate;
          reflexivity.
      * apply SFmul_nonneg.
        destruct y as [s | s | | s m e]; try destruct s; try discriminate;
          try reflexivity.
        destruct x as [s | s | | s m e]; try destruct s; discriminate.
Qed.

Lemma binary_round_form s m e :
  exists m2 e2, binary_round prec emax s m e = sf_out s m2 e2 /\ 0 <= m2.
Proof.
  unfold binary_round.
  destruct (shl_align m e (fexp prec emax (Zpos (digits2_pos m) + e))) as [mz ez].
  apply binary_round_aux_form.
Qed.

Lemma SFadd_nonneg a b :
  SF_nonneg a = true -> SF_nonneg b = true ->
  SF_nonneg (SF64add a b) = true.
Proof.
  destruct a as [sa | sa | | sa ma ea]; try (destruct sa); try discriminate;
    destruct b as [sb | sb | | sb mb eb]; try (destruct sb); try discriminate;
    try reflexivity.
  intros _ _. unfold SF64add, SFadd. cbn [cond_Zopp Z.add binary_normalize].
  destruct (binary_round_form false
              (fst (shl_align ma ea (Z.min ea eb)) + fst (shl_align mb eb (Z.min ea eb)))
              (Z.min ea eb)) as [m2 [e2 [-> H]]].
  apply sf_out_nonneg; exact H.
Qed.

Lemma iter_xO m d : Zpos (Pos.iter xO m d) = Zpos m * 2 ^ Zpos d.
Proof.
  induction d as [| d IH] using Pos.peano_ind.
  - cbn [Pos.iter]. rewrite Pos2Z.inj_xO. change (2 ^ 1) with 2. lia.
  - rewrite Pos.iter_succ, Pos2Z.inj_xO, IH, Pos2Z.inj_succ.
    rewrite Z.pow_succ_r by lia. lia.
Qed.

Lemma shl_align_spec m e e' :
  snd (shl_align m e e') = Z.min e e'
  /\ Zpos (fst (shl_align m e e')) = Zpos m * 2 ^ (e - Z.min e e').
Proof.
  unfold shl_align. destruct (e' - e) as [| d | d] eqn:D; cbn [fst snd].
  - rewrite Z.min_l by lia. replace (e - e) with 0 by lia. simpl. lia.
  - rewrite Z.min_l by lia. replace (e - e) with 0 by lia. simpl. lia.
  - rewrite Z.min_r by lia. split; [reflexivity |].
    rewrite iter_xO. replace (e - e') with (Zpos d) by lia. reflexivity.
Qed.

(** The value of a rounded mantissa, in units of [2^b]. *)
Lemma binary_round_value s m e b :
  b <= e -> b <= -1074 ->
  exists m2 e2,
    binary_round prec emax s m e = sf_out s m2 e2
    /\ 0 <= m2 /\ -1074 <= e2
    /\ (m2 = 0 \/ canonical m2 e2)
    /\ m2 * 2 ^ (e2 - b) = rndV (-1074 - b) (Zpos m * 2 ^ (e - b)).
Proof.
  intros Hbe Hb. unfold binary_round.
  fold (fexp64 (Zpos (digits2_pos m) + e)).
  set (F := fexp64 (Zpos (digits2_pos m) + e)).
  destruct (shl_align_spec m e F) as [S1 S2].
  destruct (shl_align m e F) as [mz ez]. cbn [fst snd] in S1, S2.
  assert (HF : F = Z.max (Zpos (digits2_pos m) + e - 53) (-1074))
    by (unfold F; apply fexp64_eq).
  assert (Hz : Zdigits2 (Zpos mz) + ez = Zpos (digits2_pos m) + e).
  { rewrite S2. rewrite Zdigits2_mul_pow2 by lia. cbn [Zdigits2]. lia. }
  assert (Hn : ez <= fexp64 (Zdigits2 (Zpos mz) + ez)).
  { rewrite Hz. fold F. lia. }
  destruct (binary_round_aux_value s mz ez b ltac:(lia) Hb Hn)
    as [m2 [e2 [R [Hm2 [He2 [Hc Hv]]]]]].
  exists m2, e2. repeat (split; [assumption |]).
  rewrite Hv. f_equal. rewrite S2.
  replace (e - b) with ((e - Z.min e F) + (ez - b)) by lia.
  rewrite (pow2_add (e - Z.min e F)) by lia. lia.
Qed.

(** Canonical values are fixed points of the rounding. *)
Lemma rndV_canonical m e b :
  0 < m -> canonical m e -> b <= -1074 ->
  rndV (-1074 - b) (m * 2 ^ (e - b)) = m * 2 ^ (e - b).
Proof.
  intros Hm Hc Hb. destruct (canonical_digits m e Hm Hc) as [He _].
  unfold rndV. cbv zeta. rewrite Zdigits2_mul_pow2 by lia.
  unfold canonical in Hc. rewrite fexp64_eq in Hc.
  replace (Z.max (Zdigits2 m + (e - b) - 53) (-1074 - b)) with (e - b) by lia.
  rewrite rne_exact by (apply pow2_pos; lia). reflexivity.
Qed.

Lemma sf_out_finite s m e :
  e <= 971 -> sf_out s (Zpos m) e = S754_finite s m e.
Proof.
  intros He. cbn [sf_out]. rewrite (proj2 (Z.leb_le _ _)); [reflexivity |].
  exact He.
Qed.

(** The sum of two positive finite floats is not below either. *)
Lemma SFadd_finite_ge ma ea mb eb :
  valid_binary (S754_finite false ma ea) = true ->
  valid_binary (S754_finite false mb eb) = true ->
  SFleb (S754_finite false ma ea)
        (SF64add (S754_finite false ma ea) (S754_finite false mb eb)) = true
  /\ SFleb (S754_finite false mb eb)
        (SF64add (S754_finite false ma ea) (S754_finite false mb eb)) = true.
Proof.
  intros Va Vb.
  destruct (valid_finite _ _ _ Va) as [Ca Ea].
  destruct (valid_finite _ _ _ Vb) as [Cb Eb].
  destruct (canonical_digits _ _ (Pos2Z.is_pos ma) Ca) as [La _].
  destruct (canonical_digits _ _ (Pos2Z.is_pos mb) Cb) as [Lb _].
  unfold SF64add, SFadd. cbn [cond_Zopp Z.add binary_normalize].
  set (ez := Z.min ea eb).
  destruct (shl_align_spec ma ea ez) as [_ A].
  destruct (shl_align_spec mb eb ez) as [_ B].
  replace (Z.min ea ez) with ez in A by lia.
  replace (Z.min eb ez) with ez in B by lia.
  set (ma' := fst (shl_align ma ea ez)) in *.
  set (mb' := fst (shl_align mb eb ez)) in *.
  destruct (binary_round_value false (ma' + mb') ez (-1074) ltac:(lia) ltac:(lia))
    as [m2 [e2 [-> [Hm2 [He2 [Hc Hv]]]]]].
  replace (-1074 - -1074) with 0 in Hv by lia.
  assert (Hsum : Zpos (ma' + mb') * 2 ^ (ez - -1074)
                 = Zpos ma * 2 ^ (ea - -1074) + Zpos mb * 2 ^ (eb - -1074)).
  { rewrite Pos2Z.inj_add, A, B.
    replace (ea - -1074) with ((ea - ez) + (ez - -1074)) by lia.
    replace (eb - -1074) with ((eb - ez) + (ez - -1074)) by lia.
    rewrite !pow2_add by lia. ring. }
  rewrite Hsum in Hv.
  pose proof (pow2_pos (ea - -1074) ltac:(lia)) as Pa.
  pose proof (pow2_pos (eb - -1074) ltac:(lia)) as Pb.
  rewrite <- (sf_out_finite false ma ea Ea), <- (sf_out_finite false mb eb Eb).
  split.
  - apply sf_out_leb with (b := -1074); try lia; try (right; assumption);
      try assumption.
    rewrite Hv.
    rewrite <- (rndV_canonical (Zpos ma) ea (-1074) (Pos2Z.is_pos _) Ca ltac:(lia)) at 1.
    replace (-1074 - -1074) with 0 by lia.
    apply rndV_mono; [lia |]. nia.
  - apply sf_out_leb with (b := -1074); try lia; try (right; assumption);
      try assumption.
    rewrite Hv.
    rewrite <- (rndV_canonical (Zpos mb) eb (-1074) (Pos2Z.is_pos _) Cb ltac:(lia)) at 1.
    replace (-1074 - -1074) with 0 by lia.
    apply rndV_mono; [lia |]. nia.
Qed.

Lemma SFleb_refl_valid a :
  SF_nonneg a = true -> SFleb a a = true.
Proof.
  destruct a as [s | s | | s m e]; try (destruct s); try discriminate;
    intros _; try reflexivity.
  apply SFleb_finite_pos. right. split; [reflexivity | lia].
Qed.

Lemma SFadd_ge a b :
  valid_binary a = true -> valid_binary b = true ->
  SF_nonneg a = true -> SF_nonneg b = true ->
  SFleb a (SF64add a b) = true /\ SFleb b (SF64add a b) = true.
Proof.
  intros Va Vb.
  destruct a as [sa | sa | | sa ma ea]; try (destruct sa); try discriminate;
    destruct b as [sb | sb | | sb mb eb]; try (destruct sb); try discriminate;
    intros _ _; try (split; reflexivity);
    try (split; [reflexivity | apply SFleb_refl_valid; reflexivity]);
    try (split; [apply SFleb_refl_valid; reflexivity | reflexivity]).
  apply SFadd_finite_ge; assumption.
Qed.

Lemma SF_pos_leb b c :
  SFltb (S754_zero false) b = true -> SFleb b c = true ->
  SFltb (S754_zero false) c = true.
Proof.
  destruct b as [sb | sb | | sb mb eb]; try (destruct sb); try discriminate;
    destruct c as [sc | sc | | sc mc ec]; try (destruct sc); try discriminate;
    reflexivity.
Qed.

Lemma SFleb_trans_nonneg a b c :
  SF_nonneg a = true -> SFleb a b = true -> SFleb b c = true ->
  SFleb a c = true.
Proof.
  destruct a as [sa | sa | | sa ma ea]; try (destruct sa); try discriminate;
    destruct b as [sb | sb | | sb mb eb]; try (destruct sb); try discriminate;
    destruct c as [sc | sc | | sc mc ec]; try (destruct sc); try discriminate;
    intros _; try reflexivity.
  rewrite !SFleb_finite_pos. lia.
Qed.

Lemma SFcompare_antisym a b :
  SFcompare b a
  = match SFcompare a b with Some c => Some (CompOpp c) | None => None end.
Proof.
  destruct a as [sa | sa | | sa ma ea], b as [sb | sb | | sb mb eb];
    try reflexivity;
    try (destruct sa; reflexivity);
    try (destruct sb; reflexivity);
    try (destruct sa, sb; reflexivity).
  cbn [SFcompare].
  change (Pos.compare_cont Eq mb ma) with (Pos.compare mb ma).
  change (Pos.compare_cont Eq ma mb) with (Pos.compare ma mb).
  rewrite (Z.compare_antisym ea eb), (Pos.compare_antisym ma mb).
  destruct sa, sb; try reflexivity;
    destruct (ea ?= eb); try reflexivity;
    destruct (ma ?= mb)%positive; reflexivity.
Qed.

Lemma SFltb_leb a b : SFltb a b = true -> SFleb a b = true.
Proof. unfold SFltb, SFleb. destruct (SFcompare a b) as [[] |]; auto. Qed.

(** Two floats that are not NaN are comparable. *)
Lemma SFleb_total a b :
  SFeqb a a = true -> SFeqb b b = true ->
  SFltb a b = false -> SFleb b a = true.
Proof.
  unfold SFeqb, SFltb, SFleb. rewrite (SFcompare_antisym a b).
  intros Ha Hb.
  destruct (SFcompare a b) as [[] |] eqn:E; try discriminate; try reflexivity.
  intros _. exfalso.
  destruct a as [sa | sa | | sa ma ea]; try discriminate;
    destruct b as [sb | sb | | sb mb eb]; try discriminate;
    try (destruct sa); try (destruct sb); discriminate.
Qed.

Lemma SFleb_finite_neg m e m' e' :
  SFleb (S754_finite true m e) (S754_finite true m' e') = true
  <-> (e' < e \/ (e' = e /\ Zpos m' <= Zpos m)).
Proof.
  change (S754_finite true m e) with (SFopp (S754_finite false m e)).
  change (S754_finite true m' e') with (SFopp (S754_finite false m' e')).
  rewrite SFleb_opp. apply SFleb_finite_pos.
Qed.

Lemma SFleb_trans a b c :
  SFleb a b = true -> SFleb b c = true -> SFleb a c = true.
Proof.
  destruct a as [sa | sa | | sa ma ea]; try (destruct sa); try discriminate;
    destruct b as [sb | sb | | sb mb eb]; try (destruct sb); try discriminate;
    destruct c as [sc | sc | | sc mc ec]; try (destruct sc); try discriminate;
    try reflexivity.
  - rewrite !SFleb_finite_neg. lia.
  - rewrite !SFleb_finite_pos. lia.
Qed.

Lemma SFeqb_leb a b : SFeqb a b = true -> SFleb a b = true /\ SFleb b a = true.
Proof.
  unfold SFeqb, SFleb. rewrite (SFcompare_antisym a b).
  destruct (SFcompare a b) as [[] |]; try discriminate. auto.
Qed.

Lemma SFltb_not_leb a b : SFltb a b = true -> SFleb b a = false.
Proof.
  unfold SFltb, SFleb. rewrite (SFcompare_antisym a b).
  destruct (SFcompare a b) as [[] |]; try discriminate. auto.
Qed.

Lemma SFmul_comm a b : SF64mul a b = SF64mul b a.
Proof.
  unfold SF64mul, SFmul.
  destruct a as [sa | sa | | sa ma ea], b as [sb | sb | | sb mb eb];
    try reflexivity; try (rewrite xorb_comm; reflexivity).
  rewrite xorb_comm, Pos.mul_comm, Z.add_comm. reflexivity.
Qed.

(** The value of the sum of two positive finite floats. *)
Lemma SFadd_finite_value ma ea mb eb :
  valid_binary (S754_finite false ma ea) = true ->
  valid_binary (S754_finite false mb eb) = true ->
  exists m2 e2,
    SF64add (S754_finite false ma ea) (S754_finite false mb eb)
    = sf_out false m2 e2
    /\ 0 <= m2 /\ -1074 <= e2 /\ (m2 = 0 \/ canonical m2 e2)
    /\ m2 * 2 ^ (e2 - -1074)
       = rndV 0 (Zpos ma * 2 ^ (ea - -1074) + Zpos mb * 2 ^ (eb - -1074)).
Proof.
  intros Va Vb.
  destruct (valid_finite _ _ _ Va) as [Ca Ea].
  destruct (valid_finite _ _ _ Vb) as [Cb Eb].
  destruct (canonical_digits _ _ (Pos2Z.is_pos ma) Ca) as [La _].
  destruct (canonical_digits _ _ (Pos2Z.is_pos mb) Cb) as [Lb _].
  unfold SF64add, SFadd. cbn [cond_Zopp Z.add binary_normalize].
  set (ez := Z.min ea eb).
  destruct (shl_align_spec ma ea ez) as [_ A].
  destruct (shl_align_spec mb eb ez) as [_ B].
  replace (Z.min ea ez) with ez in A by lia.
  replace (Z.min eb ez) with ez in B by lia.
  set (ma' := fst (shl_align ma ea ez)) in *.
  set (mb' := fst (shl_align mb eb ez)) in *.
  destruct (binary_round_value false (ma' + mb') ez (-1074) ltac:(lia) ltac:(lia))
    as [m2 [e2 [-> [Hm2 [He2 [Hc Hv]]]]]].
  replace (-1074 - -1074) with 0 in Hv by lia.
  exists m2, e2. repeat (split; [first [reflexivity | assumption] |]).
  rewrite Hv. f_equal.
  rewrite Pos2Z.inj_add, A, B.
  replace (ea - -1074) with ((ea - ez) + (ez - -1074)) by lia.
  replace (eb - -1074) with ((eb - ez) + (ez - -1074)) by lia.
  rewrite !pow2_add by lia. ring.
Qed.

Lemma SFadd_finite_mono ma ea ma' ea' mb eb :
  valid_binary (S754_finite false ma ea) = true ->
  valid_binary (S754_finite false ma' ea') = true ->
  valid_binary (S754_finite false mb eb) = true ->
  SFleb (S754_finite false ma ea) (S754_finite false ma' ea') = true ->
  SFleb (SF64add (S754_finite false ma ea) (S754_finite false mb eb))
        (SF64add (S754_finite false ma' ea') (S754_finite false mb eb)) = true.
Proof.
  intros Va Va' Vb Hle.
  destruct (valid_finite _ _ _ Va) as [Ca Ea].
  destruct (valid_finite _ _ _ Va') as [Ca' Ea'].
  destruct (valid_finite _ _ _ Vb) as [Cb Eb].
  destruct (canonical_digits _ _ (Pos2Z.is_pos ma) Ca) as [La _].
  destruct (canonical_digits _ _ (Pos2Z.is_pos ma') Ca') as [La' _].
  destruct (canonical_digits _ _ (Pos2Z.is_pos mb) Cb) as [Lb _].
  destruct (SFadd_finite_value ma ea mb eb Va Vb)
    as [m2 [e2 [-> [Hm2 [He2 [Hc2 Hv2]]]]]].
  destruct (SFadd_finite_value ma' ea' mb eb Va' Vb)
    as [m3 [e3 [-> [Hm3 [He3 [Hc3 Hv3]]]]]].
  apply sf_out_leb with (b := -1074); try assumption.
  rewrite Hv2, Hv3. apply rndV_mono; [lia |].
  apply SFleb_finite_pos in Hle.
  pose proof (canonical_le_inv _ _ _ _ (-1074) (Pos2Z.is_pos ma) (Pos2Z.is_pos ma')
                Ca Ca' La La' Hle) as Hv.
  pose proof (pow2_pos (ea - -1074) ltac:(lia)).
  pose proof (pow2_pos (eb - -1074) ltac:(lia)).
  split; [nia | lia].
Qed.

(** On non-negative floats the sum is monotone in its first argument. *)
Lemma SFadd_mono_l a a' b :
  valid_binary a = true -> valid_binary a' = true -> valid_binary b = true ->
  SF_nonneg a = true -> SF_nonneg b = true ->
  SFleb a a' = true ->
  SFleb (SF64add a b) (SF64add a' b) = true.
Proof.
  intros Va Va' Vb Na Nb Hle.
  assert (Na' : SF_nonneg a' = true).
  { unfold SF_nonneg. apply SFleb_trans_nonneg with (b := a);
      [reflexivity | exact Na | exact Hle]. }
  destruct b as [sb | sb | | sb mb eb]; try discriminate.
  - (* b is a zero *)
    destruct a as [sa | sa | | sa ma ea]; try discriminate;
      destruct a' as [sa' | sa' | | sa' ma' ea']; try discriminate;
      try (destruct sa); try (destruct sa'); try (destruct sb);
      try discriminate; try reflexivity; exact Hle.
  - (* b is infinite *)
    destruct sb; try discriminate.
    destruct a as [sa | sa | | sa ma ea]; try discriminate;
      destruct a' as [sa' | sa' | | sa' ma' ea']; try discriminate;
      try (destruct sa); try (destruct sa'); try discriminate; reflexivity.
  - destruct sb; try discriminate.
    destruct a as [sa | sa | | sa ma ea]; try discriminate;
      try (destruct sa; try discriminate);
      destruct a' as [sa' | sa' | | sa' ma' ea']; try discriminate;
      try (destruct sa'; try discriminate);
      try (apply SFleb_refl_valid; reflexivity);
      try reflexivity.
    + apply (SFadd_finite_ge ma' ea' mb eb Va' Vb).
    + apply (SFadd_finite_ge ma' ea' mb eb Va' Vb).
    + apply SF_nonneg_leb_inf.
      apply (SFadd_nonneg (S754_finite false ma ea) (S754_finite false mb eb));
        reflexivity.
    + apply SFadd_finite_mono; assumption.
Qed.

Lemma SFadd_comm a b : SF64add a b = SF64add b a.
Proof.
  unfold SF64add, SFadd.
  destruct a as [sa | sa | | sa ma ea], b as [sb | sb | | sb mb eb];
    try reflexivity;
    try (destruct sa, sb; reflexivity).
  rewrite (Z.min_comm eb ea), Z.add_comm. reflexivity.
Qed.

Lemma SFmul_mono_coeff x c c' :
  valid_binary x = true -> valid_binary c = true -> valid_binary c' = true ->
  SF_nonneg x = true ->
  SFltb (S754_zero false) c = true ->
  SFltb c' (S754_infinity false) = true ->
  SFleb c c' = true ->
  SFleb (SF64mul x c) (SF64mul x c') = true.
Proof.
  intros Vx Vc Vc' Nx Pc Fc' Hle.
  destruct x as [sx | sx | | sx mx ex]; try discriminate.
  - destruct c as [s | s | | s m e]; try (destruct s); try discriminate;
      destruct c' as [s' | s' | | s' m' e']; try (destruct s');
      try discriminate; destruct sx; reflexivity.
  - destruct sx; try discriminate.
    destruct c as [s | s | | s m e]; try (destruct s); try discriminate;
      destruct c' as [s' | s' | | s' m' e']; try (destruct s');
      try discriminate; reflexivity.
  - destruct sx; try discriminate.
    rewrite (SFmul_comm _ c), (SFmul_comm _ c').
    apply SFmul_mono; assumption.
Qed.

End RoundFacts.

(** ** Products and sums of primitive floats *)

Module Binary64.

Import Round RoundFacts.

Lemma Prim2SF_zero : Prim2SF 0 = S754_zero false.
Proof. reflexivity. Qed.

Lemma Prim2SF_infinity : Prim2SF infinity = S754_infinity false.
Proof. reflexivity. Qed.

Lemma leb_zero_nonneg x : (0 <=? x) = SF_nonneg (Prim2SF x).
Proof. rewrite leb_spec, Prim2SF_zero. reflexivity. Qed.

(** A positive finite float. *)
Lemma finite_pos_inv c :
  (0 <? c) = true -> (c <? infinity) = true ->
  exists mc ec, Prim2SF c = S754_finite false mc ec.
Proof.
  rewrite !ltb_spec, Prim2SF_zero, Prim2SF_infinity.
  destruct (Prim2SF c) as [s | s | | s m e]; try (destruct s);
    try discriminate.
  intros _ _. eauto.
Qed.

Theorem mul_le_mono (x y c : float) :
  (0 <? c) = true -> (c <? infinity) = true ->
  (x <=? y) = true -> (x * c <=? y * c) = true.
Proof.
  intros Hc1 Hc2 Hle.
  destruct (finite_pos_inv c Hc1 Hc2) as [mc [ec Ec]].
  rewrite leb_spec in Hle |- *. rewrite !mul_spec, Ec.
  apply SFmul_mono; try apply Prim2SF_valid; try exact Hle.
  rewrite <- Ec. apply Prim2SF_valid.
Qed.

Theorem mul_nonneg (x c : float) :
  (0 <? c) = true -> (c <? infinity) = true ->
  (0 <=? x) = true -> (0 <=? x * c) = true.
Proof.
  intros Hc1 Hc2. destruct (finite_pos_inv c Hc1 Hc2) as [mc [ec Ec]].
  rewrite !leb_zero_nonneg, mul_spec, Ec. apply SFmul_nonneg.
Qed.

Theorem add_nonneg (a b : float) :
  (0 <=? a) = true -> (0 <=? b) = true -> (0 <=? a + b) = true.
Proof.
  rewrite !leb_zero_nonneg, add_spec. apply SFadd_nonneg.
Qed.

Lemma nonneg_eqb_refl (a : float) : (0 <=? a) = true -> (a =? a) = true.
Proof.
  rewrite leb_zero_nonneg, eqb_spec.
  destruct (Prim2SF a) as [s | s | | s m e]; try (destruct s);
    try discriminate; intros _; try reflexivity.
  unfold SFeqb, SFcompare. rewrite Z.compare_refl.
  change (Pos.compare_cont Eq m m) with (Pos.compare m m).
  rewrite Pos.compare_refl. reflexivity.
Qed.

Lemma eqb_zero_inv (x : float) :
  (x =? 0) = true -> x = 0 \/ x = neg_zero.
Proof.
  rewrite eqb_spec, Prim2SF_zero. intros H.
  rewrite <- (SF2Prim_Prim2SF x).
  destruct (Prim2SF x) as [s | s | | s m e]; try (destruct s);
    try discriminate.
  - right; reflexivity.
  - left; reflexivity.
Qed.

Lemma eqb_zero_not_pos (x : float) : (x =? 0) = true -> (0 <? x) = false.
Proof.
  intros H. destruct (eqb_zero_inv x H) as [-> | ->]; reflexivity.
Qed.

Theorem add_ge (a b : float) :
  (0 <=? a) = true -> (0 <=? b) = true ->
  (a <=? a + b) = true /\ (b <=? a + b) = true.
Proof.
  rewrite !leb_zero_nonneg, !leb_spec, add_spec.
  apply SFadd_ge; apply Prim2SF_valid.
Qed.

Lemma leb_trans_nonneg (a b c : float) :
  (0 <=? a) = true -> (a <=? b) = true -> (b <=? c) = true ->
  (a <=? c) = true.
Proof.
  rewrite !leb_zero_nonneg, !leb_spec. apply SFleb_trans_nonneg.
Qed.

Lemma pos_leb (b c : float) :
  (0 <? b) = true -> (b <=? c) = true -> (0 <? c) = true.
Proof.
  rewrite !ltb_spec, !leb_spec, Prim2SF_zero. apply SF_pos_leb.
Qed.

Lemma ltb_leb (x y : float) : (x <? y) = true -> (x <=? y) = true.
Proof. rewrite ltb_spec, leb_spec. apply SFltb_leb. Qed.

Lemma leb_total (x y : float) :
  (x =? x) = true -> (y =? y) = true ->
  (x <? y) = false -> (y <=? x) = true.
Proof. rewrite !eqb_spec, ltb_spec, leb_spec. apply SFleb_total. Qed.

Lemma leb_trans (x y z : float) :
  (x <=? y) = true -> (y <=? z) = true -> (x <=? z) = true.
Proof. rewrite !leb_spec. apply SFleb_trans. Qed.

Lemma eqb_leb (x y : float) :
  (x =? y) = true -> (x <=? y) = true /\ (y <=? x) = true.
Proof. rewrite eqb_spec, !leb_spec. apply SFeqb_leb. Qed.

Lemma ltb_not_leb (x y : float) : (x <? y) = true -> (y <=? x) = false.
Proof. rewrite ltb_spec, leb_spec. apply SFltb_not_leb. Qed.

Lemma eqb_refl_leb (x : float) : (x =? x) = true -> (x <=? x) = true.
Proof. intros H. apply eqb_leb in H. apply H. Qed.

Lemma mul_comm (x y : float) : x * y = y * x.
Proof. apply Prim2SF_inj. rewrite !mul_spec. apply SFmul_comm. Qed.

Lemma add_comm (x y : float) : x + y = y + x.
Proof. apply Prim2SF_inj. rewrite !add_spec. apply SFadd_comm. Qed.

Theorem add_le_mono_l (a a' b : float) :
  (0 <=? a) = true -> (0 <=? b) = true -> (a <=? a') = true ->
  (a + b <=? a' + b) = true.
Proof.
  rewrite !leb_zero_nonneg, !leb_spec, !add_spec.
  intros. apply SFadd_mono_l; try apply Prim2SF_valid; assumption.
Qed.

Theorem add_le_mono_r (a a' b : float) :
  (0 <=? a) = true -> (0 <=? b) = true -> (a <=? a') = true ->
  (b + a <=? b + a') = true.
Proof.
  intros. rewrite (add_comm b a), (add_comm b a').
  apply add_le_mono_l; assumption.
Qed.

Theorem mul_le_mono_coeff (x c c' : float) :
  (0 <=? x) = true -> (0 <? c) = true -> (c' <? infinity) = true ->
  (c <=? c') = true -> (x * c <=? x * c') = true.
Proof.
  rewrite leb_zero_nonneg, !ltb_spec, !leb_spec, !mul_spec,
    Prim2SF_zero, Prim2SF_infinity.
  intros. apply SFmul_mono_coeff; try apply Prim2SF_valid; assumption.
Qed.

Lemma leb_refl_nonneg x : (0 <=? x) = true -> (x <=? x) = true.
Proof.
  intros H. rewrite leb_spec. apply SFleb_refl_valid.
  rewrite <- leb_zero_nonneg. exact H.
Qed.

End Binary64.

(** * The calculation *)

(** Case analysis along the two chains of tests of [calculate_footprint]. *)
Ltac split_transport ty :=
  destruct (String.eqb ty "Gasoline Car");
  [| destruct (String.eqb ty "Electric Car");
     [| destruct (String.eqb ty "Public Transport");
        [| destruct (String.eqb ty "Flight")]]].

Ltac split_diet diet :=
  destruct (String.eqb diet "High Meat (Daily)");
  [| destruct (String.eqb diet "Medium Meat (Few times/week)");
     [| destruct (String.eqb diet "Low Meat (Once/week)");
        [| destruct (String.eqb diet "Vegetarian");
           [| destruct (String.eqb diet "Vegan")]]]].

(** ** The shape of every result *)

(** [calculate_footprint] raises no exception: it returns the left to right
    sum of the four contributions and a breakdown of four entries. *)
Lemma calculate_footprint_eq km ty kwh diet kg :
  exists t d,
    calculate_footprint km ty kwh diet kg
    = Ok (0 + t + kwh * 0.23 + d + kg * 0.2,
          [ ("Transportation", t); ("Electricity", kwh * 0.23);
            ("Diet", d); ("Waste", kg * 0.2) ])
    /\ transport_part km ty t /\ diet_part diet d.
Proof.
  unfold calculate_footprint, transport_part, diet_part, transport_key, diet_key.
  split_transport ty; split_diet diet;
  do 2 eexists; (split; [reflexivity |]); split;
  solve [reflexivity | eexists; split; reflexivity].
Qed.

Lemma transport_key_In ty :
  transport_key ty = None <-> ~ In ty transport_types.
Proof.
  unfold transport_key, transport_types.
  destruct (String.eqb_spec ty "Gasoline Car") as [-> | N1];
    [split; [discriminate | intros H; exfalso; apply H; simpl; auto] |].
  destruct (String.eqb_spec ty "Electric Car") as [-> | N2];
    [split; [discriminate | intros H; exfalso; apply H; simpl; auto] |].
  destruct (String.eqb_spec ty "Public Transport") as [-> | N3];
    [split; [discriminate | intros H; exfalso; apply H; simpl; auto] |].
  destruct (String.eqb_spec ty "Flight") as [-> | N4];
    [split; [discriminate | intros H; exfalso; apply H; simpl; auto] |].
  split; [| reflexivity]. intros _ [H | [H | [H | [H | []]]]]; congruence.
Qed.

Lemma diet_key_In diet :
  diet_key diet = None <-> ~ In diet diet_choices.
Proof.
  unfold diet_key, diet_choices.
  destruct (String.eqb_spec diet "High Meat (Daily)") as [-> | N1];
    [split; [discriminate | intros H; exfalso; apply H; simpl; auto] |].
  destruct (String.eqb_spec diet "Medium Meat (Few times/week)") as [-> | N2];
    [split; [discriminate | intros H; exfalso; apply H; simpl; auto] |].
  destruct (String.eqb_spec diet "Low Meat (Once/week)") as [-> | N3];
    [split; [discriminate | intros H; exfalso; apply H; simpl; auto] |].
  destruct (String.eqb_spec diet "Vegetarian") as [-> | N4];
    [split; [discriminate | intros H; exfalso; apply H; simpl; auto 6] |].
  destruct (String.eqb_spec diet "Vegan") as [-> | N5];
    [split; [discriminate | intros H; exfalso; apply H; simpl; auto 6] |].
  split; [| reflexivity]. intros _ [H | [H | [H | [H | [H | []]]]]]; congruence.
Qed.

(** The coefficients of the table are positive and finite. *)
Lemma transport_factor_pos ty k f :
  transport_key ty = Some k -> factor "transportation" k = Ok f ->
  (0 <? f) = true /\ (f <? infinity) = true.
Proof.
  unfold transport_key.
  split_transport ty;
  intros H; inversion H; subst k; intros F; inversion F; subst f;
  split; reflexivity.
Qed.

(** The diet contribution is one of six values. *)
Lemma diet_part_cases diet d :
  diet_part diet d ->
  (In diet diet_choices /\ In d [75; 45; 24; 15; 9]) \/
  (~ In diet diet_choices /\ d = 0).
Proof.
  unfold diet_part. destruct (diet_key diet) as [k |] eqn:K.
  - intros [f [F ->]]. left. split.
    + destruct (in_dec string_dec diet diet_choices) as [I | I]; [exact I |].
      apply diet_key_In in I. congruence.
    + revert K F. unfold diet_key.
      split_diet diet;
      intros H; inversion H; subst k; intros F; inversion F; subst f;
      simpl; auto 6.
  - intros ->. right. split; [apply diet_key_In; exact K | reflexivity].
Qed.

Lemma diet_part_nonneg diet d : diet_part diet d -> (0 <=? d) = true.
Proof.
  intros H. destruct (diet_part_cases diet d H) as [[_ I] | [_ ->]];
    [| reflexivity].
  simpl in I. destruct I as [<- | [<- | [<- | [<- | [<- | []]]]]]; reflexivity.
Qed.

Lemma transport_part_nonneg km ty t :
  (0 <=? km) = true -> transport_part km ty t -> (0 <=? t) = true.
Proof.
  unfold transport_part. intros Hkm.
  destruct (transport_key ty) as [k |] eqn:K.
  - intros [f [F ->]]. destruct (transport_factor_pos ty k f K F) as [P1 P2].
    apply Binary64.mul_nonneg; assumption.
  - intros ->. reflexivity.
Qed.

Lemma transport_part_mono km km' ty t t' :
  (km <=? km') = true ->
  transport_part km ty t -> transport_part km' ty t' -> (t <=? t') = true.
Proof.
  unfold transport_part. intros Hle.
  destruct (transport_key ty) as [k |] eqn:K.
  - intros [f [F ->]] [f' [F' ->]].
    assert (f' = f) by congruence. subst f'.
    destruct (transport_factor_pos ty k f K F) as [P1 P2].
    apply Binary64.mul_le_mono; assumption.
  - intros -> ->. reflexivity.
Qed.

Lemma transport_part_fun km ty t t' :
  transport_part km ty t -> transport_part km ty t' -> t = t'.
Proof.
  unfold transport_part. destruct (transport_key ty) as [k |].
  - intros [f [F ->]] [f' [F' ->]]. congruence.
  - intros -> ->. reflexivity.
Qed.

Lemma diet_part_fun diet d d' :
  diet_part diet d -> diet_part diet d' -> d = d'.
Proof.
  unfold diet_part. destruct (diet_key diet) as [k |].
  - intros [f [F ->]] [f' [F' ->]]. congruence.
  - intros -> ->. reflexivity.
Qed.

(** ** The claims about [calculate_footprint] *)

(** C1.  For 500 km by gasoline car, 300 kWh, a vegetarian diet and 15 kg
    of waste, [calculate_footprint] returns the breakdown
    Transportation = 105.0, Electricity = 69.0, Diet = 15.0, Waste = 3.0
    and the total 192.0. *)
Theorem scenario_gasoline_vegetarian :
  calculate_footprint 500 "Gasoline Car" 300 "Vegetarian" 15
  = Ok (192, [ ("Transportation", 105); ("Electricity", 69);
               ("Diet", 15); ("Waste", 3) ]).
Proof. vm_compute. reflexivity. Qed.

(** The scenario of a flight of 1000 km with a diet of meat every day. *)
Example scenario_flight_high_meat :
  calculate_footprint 1000 "Flight" 0 "High Meat (Daily)" 0
  = Ok (225, [ ("Transportation", 150); ("Electricity", 0);
               ("Diet", 75); ("Waste", 0) ]).
Proof. vm_compute. reflexivity. Qed.

(** C2.  When the three numeric inputs are non-negative, the total that
    [calculate_footprint] returns is the sum of the values of the breakdown
    it returns: the same binary64 value, and equal to it for Python's
    [==]. *)
Theorem total_is_sum_of_breakdown km ty kwh diet kg :
  (0 <=? km) = true -> (0 <=? kwh) = true -> (0 <=? kg) = true ->
  exists total_co2e breakdown,
    calculate_footprint km ty kwh diet kg = Ok (total_co2e, breakdown)
    /\ total_co2e = py_sum (Dict.values breakdown)
    /\ (total_co2e =? py_sum (Dict.values breakdown)) = true.
Proof.
  intros Hkm Hkwh Hkg.
  destruct (calculate_footprint_eq km ty kwh diet kg) as [t [d [E [Ht Hd]]]].
  do 2 eexists. split; [exact E |]. split; [reflexivity |].
  change (py_sum _) with (0 + t + kwh * 0.23 + d + kg * 0.2).
  apply Binary64.nonneg_eqb_refl.
  repeat apply Binary64.add_nonneg.
  - reflexivity.
  - apply (transport_part_nonneg km ty); assumption.
  - apply Binary64.mul_nonneg; [reflexivity | reflexivity | exact Hkwh].
  - apply (diet_part_nonneg diet); exact Hd.
  - apply Binary64.mul_nonneg; [reflexivity | reflexivity | exact Hkg].
Qed.

Lemma total_is_sum_of_breakdown_witness :
  exists total_co2e breakdown,
    calculate_footprint 500 "Gasoline Car" 300 "Vegetarian" 15
    = Ok (total_co2e, breakdown)
    /\ total_co2e = py_sum (Dict.values breakdown)
    /\ (total_co2e =? py_sum (Dict.values breakdown)) = true.
Proof.
  apply (total_is_sum_of_breakdown 500 "Gasoline Car" 300 "Vegetarian" 15);
    reflexivity.
Defined.

(** C3 fails: a negative input raises nothing.  With -10 km the
    calculation returns, and the Transportation contribution is the
    negative product. *)
Lemma negative_distance_is_accepted :
  (-10 <? 0) = true
  /\ calculate_footprint (-10) "Gasoline Car" 300 "Vegetarian" 15
     = Ok (84.9, [ ("Transportation", -2.1); ("Electricity", 69);
                   ("Diet", 15); ("Waste", 3) ])
  /\ forall e,
       calculate_footprint (-10) "Gasoline Car" 300 "Vegetarian" 15
       <> Raise e.
Proof.
  split; [reflexivity |]. split; [vm_compute; reflexivity |].
  intros e H. vm_compute in H. discriminate H.
Qed.

(** C3, amended.  [calculate_footprint] validates nothing: whatever the
    numeric inputs among the floats and the integers Python converts to
    floats, negative ones included, it returns a total and a breakdown,
    and each numeric input enters its category as the product of the
    value as given with the coefficient of the table, nowhere clamped. *)
Theorem inputs_are_not_validated km ty kwh diet kg :
  exists total_co2e breakdown,
    calculate_footprint km ty kwh diet kg = Ok (total_co2e, breakdown)
    /\ (forall key coeff,
          transport_key ty = Some key ->
          factor "transportation" key = Ok coeff ->
          Dict.get breakdown "Transportation" = Some (km * coeff))
    /\ (exists coeff,
          factor "electricity" "kwh" = Ok coeff
          /\ Dict.get breakdown "Electricity" = Some (kwh * coeff))
    /\ (exists coeff,
          factor "waste" "kg_waste" = Ok coeff
          /\ Dict.get breakdown "Waste" = Some (kg * coeff)).
Proof.
  destruct (calculate_footprint_eq km ty kwh diet kg) as [t [d [E [Ht Hd]]]].
  do 2 eexists. split; [exact E |]. split; [| split].
  - intros key coeff K F. unfold transport_part in Ht. rewrite K in Ht.
    destruct Ht as [f [F' ->]]. simpl. congruence.
  - exists 0.23. split; reflexivity.
  - exists 0.2. split; reflexivity.
Qed.

(** C4 fails: labels outside the select boxes raise nothing, and the
    handler of the button appends the record. *)
Lemma unknown_labels_are_accepted :
  ~ In "Bicycle" transport_types
  /\ ~ In "Keto" diet_choices
  /\ on_calculate "2024-01-01" 500 "Bicycle" 300 "Keto" 15 init_session
     = Ok {| footprint_history :=
               [ {| date := "2024-01-01"; total := 72;
                    breakdown := [ ("Transportation", 0); ("Electricity", 69);
                                   ("Diet", 0); ("Waste", 3) ] |} ];
             current_footprint :=
               Some {| date := "2024-01-01"; total := 72;
                       breakdown := [ ("Transportation", 0);
                                      ("Electricity", 69);
                                      ("Diet", 0); ("Waste", 3) ] |} |}.
Proof.
  split; [apply transport_key_In; reflexivity |].
  split; [apply diet_key_In; reflexivity |].
  vm_compute. reflexivity.
Qed.

(** C4, amended.  With numeric inputs among the floats and the integers
    Python converts to floats, a transport label or a diet label that is
    not one of the recognized ones raises nothing: the contribution of its
    category is 0, the calculation returns, and the handler of the button
    appends the record to the history. *)
Theorem unknown_label_contributes_zero
    today km ty kwh diet kg (st : session_state) :
  ~ In ty transport_types \/ ~ In diet diet_choices ->
  exists total_co2e bd,
    calculate_footprint km ty kwh diet kg = Ok (total_co2e, bd)
    /\ (~ In ty transport_types -> Dict.get bd "Transportation" = Some 0)
    /\ (~ In diet diet_choices -> Dict.get bd "Diet" = Some 0)
    /\ on_calculate today km ty kwh diet kg st
       = Ok {| footprint_history :=
                 append (footprint_history st)
                        {| date := today; total := total_co2e;
                           breakdown := bd |};
               current_footprint :=
                 Some {| date := today; total := total_co2e;
                         breakdown := bd |} |}.
Proof.
  intros _.
  destruct (calculate_footprint_eq km ty kwh diet kg) as [t [d [E [Ht Hd]]]].
  do 2 eexists. split; [exact E |]. split; [| split].
  - intros N. apply transport_key_In in N.
    unfold transport_part in Ht. rewrite N in Ht. subst t. reflexivity.
  - intros N. apply diet_key_In in N.
    unfold diet_part in Hd. rewrite N in Hd. subst d. reflexivity.
  - unfold on_calculate. rewrite E. reflexivity.
Qed.

Lemma unknown_label_contributes_zero_witness :
  exists total_co2e bd,
    calculate_footprint 500 "Bicycle" 300 "Vegetarian" 15
    = Ok (total_co2e, bd)
    /\ (~ In "Bicycle" transport_types
        -> Dict.get bd "Transportation" = Some 0)
    /\ (~ In "Vegetarian" diet_choices -> Dict.get bd "Diet" = Some 0)
    /\ on_calculate "2024-01-01" 500 "Bicycle" 300 "Vegetarian" 15
         init_session
       = Ok {| footprint_history :=
                 append (footprint_history init_session)
                        {| date := "2024-01-01"; total := total_co2e;
                           breakdown := bd |};
               current_footprint :=
                 Some {| date := "2024-01-01"; total := total_co2e;
                         breakdown := bd |} |}.
Proof.
  apply (unknown_label_contributes_zero
           "2024-01-01" 500 "Bicycle" 300 "Vegetarian" 15 init_session).
  left. simpl. intros [H | [H | [H | [H | []]]]]; discriminate H.
Defined.

(** C5 fails: with every numeric input zero and the diet [Vegan], the Diet
    contribution and the total are 9.0. *)
Lemma zero_inputs_vegan :
  calculate_footprint 0 "Gasoline Car" 0 "Vegan" 0
  = Ok (9, [ ("Transportation", 0); ("Electricity", 0);
             ("Diet", 9); ("Waste", 0) ])
  /\ (9 =? 0) = false.
Proof. split; [vm_compute; reflexivity | reflexivity]. Qed.

(** C5, amended.  When the three numeric inputs are zero, the
    Transportation, Electricity and Waste contributions are zero and the
    total is the Diet contribution, which is the daily coefficient of the
    diet times 30, and is zero only for a label that is not recognized. *)
Theorem zero_inputs_leave_diet km ty kwh diet kg :
  (km =? 0) = true -> (kwh =? 0) = true -> (kg =? 0) = true ->
  exists total_co2e t e d w,
    calculate_footprint km ty kwh diet kg
    = Ok (total_co2e, [ ("Transportation", t); ("Electricity", e);
                        ("Diet", d); ("Waste", w) ])
    /\ (t =? 0) = true /\ (e =? 0) = true /\ (w =? 0) = true
    /\ total_co2e = d
    /\ diet_part diet d
    /\ ((d =? 0) = true <-> ~ In diet diet_choices).
Proof.
  intros Hkm Hkwh Hkg.
  destruct (calculate_footprint_eq km ty kwh diet kg) as [t [d [E [Ht Hd]]]].
  exists (0 + t + kwh * 0.23 + d + kg * 0.2), t, (kwh * 0.23), d, (kg * 0.2).
  split; [exact E |].
  assert (T : t = 0 \/ t = neg_zero).
  { unfold transport_part in Ht. destruct (transport_key ty) as [k |] eqn:K.
    - destruct Ht as [f [F ->]]. revert K F. unfold transport_key.
      split_transport ty;
      intros H; inversion H; subst k; intros F; inversion F; subst f;
      destruct (Binary64.eqb_zero_inv km Hkm) as [-> | ->]; auto.
    - left; exact Ht. }
  assert (D : In d [75; 45; 24; 15; 9; 0]).
  { destruct (diet_part_cases diet d Hd) as [[_ I] | [_ ->]]; simpl in *;
      intuition auto. }
  split; [destruct T as [-> | ->]; reflexivity |].
  split; [destruct (Binary64.eqb_zero_inv kwh Hkwh) as [-> | ->]; reflexivity |].
  split; [destruct (Binary64.eqb_zero_inv kg Hkg) as [-> | ->]; reflexivity |].
  split.
  - destruct (Binary64.eqb_zero_inv kwh Hkwh) as [-> | ->];
    destruct (Binary64.eqb_zero_inv kg Hkg) as [-> | ->];
    destruct T as [-> | ->];
    simpl in D;
    destruct D as [<- | [<- | [<- | [<- | [<- | [<- | []]]]]]]; reflexivity.
  - split; [exact Hd |].
    destruct (diet_part_cases diet d Hd) as [[I J] | [I ->]].
    + simpl in J.
      destruct J as [<- | [<- | [<- | [<- | [<- | []]]]]];
        (split; [discriminate | intros N; contradiction]).
    + split; [intros _; exact I | reflexivity].
Qed.

Lemma zero_inputs_leave_diet_witness :
  exists total_co2e t e d w,
    calculate_footprint 0 "Flight" 0 "Vegan" 0
    = Ok (total_co2e, [ ("Transportation", t); ("Electricity", e);
                        ("Diet", d); ("Waste", w) ])
    /\ (t =? 0) = true /\ (e =? 0) = true /\ (w =? 0) = true
    /\ total_co2e = d
    /\ diet_part "Vegan" d
    /\ ((d =? 0) = true <-> ~ In "Vegan" diet_choices).
Proof.
  apply (zero_inputs_leave_diet 0 "Flight" 0 "Vegan" 0); reflexivity.
Defined.

Lemma calculate_eq (a : activity) :
  exists t d,
    calculate a
    = Ok (0 + t + electricity_kwh a * 0.23 + d + waste_kg a * 0.2,
          [ ("Transportation", t);
            ("Electricity", electricity_kwh a * 0.23);
            ("Diet", d); ("Waste", waste_kg a * 0.2) ])
    /\ transport_part (transport_km a) (transport_type a) t
    /\ diet_part (diet_choice a) d.
Proof. apply calculate_footprint_eq. Qed.

(** C6.  When one numeric input is replaced by a value that is not
    smaller, the other arguments being kept, the contribution of the
    category of that input does not decrease and the contribution of every
    other category is the same. *)
Theorem increasing_one_input (a : activity) (i : numeric_input) (v : float) :
  (get_input i a <=? v) = true ->
  (exists c c',
      contribution (calculate a) (category_of i) = Some c
      /\ contribution (calculate (set_input i v a)) (category_of i) = Some c'
      /\ (c <=? c') = true)
  /\ (forall category,
        In category categories -> category <> category_of i ->
        exists c,
          contribution (calculate a) category = Some c
          /\ contribution (calculate (set_input i v a)) category = Some c).
Proof.
  intros Hle.
  destruct (calculate_eq a) as [t [d [E [Ht Hd]]]].
  destruct (calculate_eq (set_input i v a)) as [t' [d' [E' [Ht' Hd']]]].
  rewrite E, E'. clear E E'.
  destruct a as [km ty kwh diet kg].
  destruct i; cbn [get_input set_input category_of transport_km transport_type
                   electricity_kwh diet_choice waste_kg contribution] in *.
  - (* the distance *)
    assert (d' = d) by (eapply diet_part_fun; eassumption). subst d'.
    split.
    + exists t, t'. repeat split.
      eapply transport_part_mono; eassumption.
    + intros category I N.
      destruct I as [<- | [<- | [<- | [<- | []]]]];
        try congruence; eexists; split; reflexivity.
  - (* the electricity *)
    assert (t' = t) by (eapply transport_part_fun; eassumption). subst t'.
    assert (d' = d) by (eapply diet_part_fun; eassumption). subst d'.
    split.
    + exists (kwh * 0.23), (v * 0.23). repeat split.
      apply Binary64.mul_le_mono; [reflexivity | reflexivity | exact Hle].
    + intros category I N.
      destruct I as [<- | [<- | [<- | [<- | []]]]];
        try congruence; eexists; split; reflexivity.
  - (* the waste *)
    assert (t' = t) by (eapply transport_part_fun; eassumption). subst t'.
    assert (d' = d) by (eapply diet_part_fun; eassumption). subst d'.
    split.
    + exists (kg * 0.2), (v * 0.2). repeat split.
      apply Binary64.mul_le_mono; [reflexivity | reflexivity | exact Hle].
    + intros category I N.
      destruct I as [<- | [<- | [<- | [<- | []]]]];
        try congruence; eexists; split; reflexivity.
Qed.

Lemma increasing_one_input_witness :
  let a := {| transport_km := 500; transport_type := "Gasoline Car";
              electricity_kwh := 300; diet_choice := "Vegetarian";
              waste_kg := 15 |} in
  (exists c c',
      contribution (calculate a) "Transportation" = Some c
      /\ contribution (calculate (set_input in_transport_km 600 a))
                      "Transportation" = Some c'
      /\ (c <=? c') = true)
  /\ (forall category,
        In category categories -> category <> "Transportation" ->
        exists c,
          contribution (calculate a) category = Some c
          /\ contribution (calculate (set_input in_transport_km 600 a))
                          category = Some c).
Proof.
  intros a. apply (increasing_one_input a in_transport_km 600). reflexivity.
Defined.

(** ** The history *)

(** [append] adds at the end: the item appended is the last one, the list
    is longer by one and the items that were there are kept in place. *)
Lemma append_at_end (history : list footprint) (record : footprint) :
  (forall default, last (append history record) default = record)
  /\ nth_error (append history record) (length history) = Some record
  /\ length (append history record) = S (length history)
  /\ firstn (length history) (append history record) = history.
Proof.
  unfold append. repeat split.
  - intros default. apply last_last.
  - rewrite nth_error_app2 by apply Nat.le_refl.
    rewrite Nat.sub_diag. reflexivity.
  - rewrite length_app. simpl. apply Nat.add_1_r.
  - rewrite firstn_app, Nat.sub_diag, firstn_all. simpl. apply app_nil_r.
Qed.

(** The handler of the button appends the record it has built. *)
Lemma on_calculate_appends today km ty kwh diet kg st :
  exists record,
    on_calculate today km ty kwh diet kg st
    = Ok {| footprint_history := append (footprint_history st) record;
            current_footprint := Some record |}
    /\ date record = today
    /\ calculate_footprint km ty kwh diet kg
       = Ok (total record, breakdown record).
Proof.
  destruct (calculate_footprint_eq km ty kwh diet kg) as [t [d [E _]]].
  unfold on_calculate. rewrite E. eexists. split; [reflexivity |].
  split; reflexivity.
Qed.

(** C7.  Whatever the state of the session and the inputs, the handler of
    the button appends to the history the record of the calculation, with
    the date of the day: the history read back afterwards has that record
    as its last element, is longer by exactly one, and keeps in place the
    records that were there.  The same holds of [append] for every history
    and every record. *)
Theorem append_then_all
    today km ty kwh diet kg (st : session_state)
    (history : list footprint) (record : footprint) :
  (exists st' appended,
      on_calculate today km ty kwh diet kg st = Ok st'
      /\ date appended = today
      /\ calculate_footprint km ty kwh diet kg
         = Ok (total appended, breakdown appended)
      /\ footprint_history st' = append (footprint_history st) appended
      /\ (forall default, last (footprint_history st') default = appended)
      /\ nth_error (footprint_history st') (length (footprint_history st))
         = Some appended
      /\ length (footprint_history st') = S (length (footprint_history st))
      /\ firstn (length (footprint_history st)) (footprint_history st')
         = footprint_history st)
  /\ (forall default, last (append history record) default = record)
  /\ length (append history record) = S (length history).
Proof.
  split.
  - destruct (on_calculate_appends today km ty kwh diet kg st)
      as [appended [E [D C]]].
    destruct (append_at_end (footprint_history st) appended)
      as [L [N [Len F]]].
    eexists. exists appended. split; [exact E |].
    cbn [footprint_history]. repeat split; assumption.
  - destruct (append_at_end history record) as [L [_ [Len _]]].
    split; assumption.
Qed.

(** C8.  Whatever the inputs, the breakdown holds exactly the four
    categories, in the order Transportation, Electricity, Diet, Waste. *)
Theorem breakdown_has_four_categories km ty kwh diet kg :
  exists total_co2e breakdown,
    calculate_footprint km ty kwh diet kg = Ok (total_co2e, breakdown)
    /\ Dict.keys breakdown
       = [ "Transportation"; "Electricity"; "Diet"; "Waste" ].
Proof.
  destruct (calculate_footprint_eq km ty kwh diet kg) as [t [d [E _]]].
  do 2 eexists. split; [exact E | reflexivity].
Qed.

(** ** The tips *)

Lemma insert_desc_In x l y : In y (insert_desc x l) -> y = x \/ In y l.
Proof.
  induction l as [| z l IH]; simpl.
  - intros [<- | []]. left; reflexivity.
  - destruct (snd z <? snd x); simpl.
    + intros [<- | H]; [left; reflexivity | right; exact H].
    + intros [<- | H]; [right; left; reflexivity |].
      destruct (IH H) as [-> | I]; [left; reflexivity | right; right; exact I].
Qed.

Lemma sorted_desc_In l y : In y (sorted_desc l) -> In y l.
Proof.
  unfold sorted_desc.
  assert (G : forall acc, In y (fold_left (fun acc x => insert_desc x acc) l acc)
                          -> In y acc \/ In y l).
  { induction l as [| x l IH]; simpl; intros acc H.
    - left; exact H.
    - destruct (IH _ H) as [I | I].
      + destruct (insert_desc_In _ _ _ I) as [-> | J]; auto.
      + right; right; exact I. }
  intros H. destruct (G [] H) as [[] | I]. exact I.
Qed.

Lemma filter_nil_iff {A} (f : A -> bool) (l : list A) :
  filter f l = [] <-> forall x, In x l -> f x = false.
Proof.
  induction l as [| a l IH]; simpl.
  - split; [intros _ x [] | reflexivity].
  - destruct (f a) eqn:Fa.
    + split; [discriminate |]. intros H. rewrite (H a) in Fa by auto.
      discriminate.
    + rewrite IH. split.
      * intros H x [<- | I]; [exact Fa | apply H; exact I].
      * intros H x I. apply H. right; exact I.
Qed.

(** C9.  When no category of the current breakdown has a contribution
    different from zero, [get_gemini_response] is not called: all the
    section does is show the message that no tips are needed. *)
Theorem no_request_without_nonzero_category
    (format_2f : float -> string)
    (get_gemini_response : string -> list action * string)
    (current : footprint) :
  nonzero_categories (breakdown current) = [] ->
  personalized_tips format_2f get_gemini_response current
  = [ st_info no_tips_message ]
  /\ existsb is_call_get_gemini_response
       (personalized_tips format_2f get_gemini_response current) = false.
Proof.
  intros H.
  assert (T : top_categories (breakdown current) = "").
  { unfold top_categories.
    replace (filter _ _) with (@nil (string * float)); [reflexivity |].
    symmetry. apply filter_nil_iff. intros x I.
    apply sorted_desc_In in I.
    unfold nonzero_categories in H. apply map_eq_nil in H.
    rewrite filter_nil_iff in H. specialize (H x I).
    apply negb_false_iff in H.
    apply Binary64.eqb_zero_not_pos. exact H. }
  unfold personalized_tips. rewrite T. split; reflexivity.
Qed.

Lemma no_request_without_nonzero_category_witness :
  personalized_tips (fun _ => "0.00") (fun _ => ([], "tips"))
    {| date := "2024-01-01"; total := 0;
       breakdown := [ ("Transportation", 0); ("Electricity", 0);
                      ("Diet", 0); ("Waste", 0) ] |}
  = [ st_info no_tips_message ]
  /\ existsb is_call_get_gemini_response
       (personalized_tips (fun _ => "0.00") (fun _ => ([], "tips"))
          {| date := "2024-01-01"; total := 0;
             breakdown := [ ("Transportation", 0); ("Electricity", 0);
                            ("Diet", 0); ("Waste", 0) ] |}) = false.
Proof.
  apply (no_request_without_nonzero_category
           (fun _ => "0.00") (fun _ => ([], "tips"))
           {| date := "2024-01-01"; total := 0;
              breakdown := [ ("Transportation", 0); ("Electricity", 0);
                             ("Diet", 0); ("Waste", 0) ] |}).
  reflexivity.
Defined.

(** C10.  For a recognized diet label the Diet contribution is the daily
    coefficient of the diet times 30 and is at least 9.0; so the total is
    at least 9.0, hence strictly positive, whenever the numeric inputs are
    non-negative, in particular when they are all zero. *)
Theorem diet_contribution_of_recognized_label km ty kwh diet kg :
  In diet diet_choices ->
  exists total_co2e breakdown key coeff d,
    calculate_footprint km ty kwh diet kg = Ok (total_co2e, breakdown)
    /\ diet_key diet = Some key
    /\ factor "diet" key = Ok coeff
    /\ Dict.get breakdown "Diet" = Some d
    /\ d = coeff * 30
    /\ (9 <=? d) = true
    /\ ((0 <=? km) = true -> (0 <=? kwh) = true -> (0 <=? kg) = true ->
        (9 <=? total_co2e) = true /\ (0 <? total_co2e) = true).
Proof.
  intros I.
  destruct (calculate_footprint_eq km ty kwh diet kg) as [t [d [E [Ht Hd]]]].
  destruct (diet_part_cases diet d Hd) as [[_ J] | [N _]]; [| contradiction].
  pose proof Hd as Hd'. unfold diet_part in Hd'.
  destruct (diet_key diet) as [key |] eqn:K;
    [| apply diet_key_In in K; contradiction].
  destruct Hd' as [coeff [F D]].
  assert (H9 : (9 <=? d) = true).
  { simpl in J.
    destruct J as [<- | [<- | [<- | [<- | [<- | []]]]]]; reflexivity. }
  exists (0 + t + kwh * 0.23 + d + kg * 0.2),
         [ ("Transportation", t); ("Electricity", kwh * 0.23);
           ("Diet", d); ("Waste", kg * 0.2) ], key, coeff, d.
  split; [exact E |]. split; [reflexivity |]. split; [exact F |].
  split; [reflexivity |]. split; [exact D |]. split; [exact H9 |].
  intros Hkm Hkwh Hkg.
  assert (Hs : (0 <=? 0 + t + kwh * 0.23) = true).
  { repeat apply Binary64.add_nonneg.
    - reflexivity.
    - apply (transport_part_nonneg km ty); assumption.
    - apply Binary64.mul_nonneg; [reflexivity | reflexivity | exact Hkwh]. }
  assert (Hd0 : (0 <=? d) = true) by (apply (diet_part_nonneg diet); exact Hd).
  assert (Hw : (0 <=? kg * 0.2) = true)
    by (apply Binary64.mul_nonneg; [reflexivity | reflexivity | exact Hkg]).
  destruct (Binary64.add_ge _ _ Hs Hd0) as [_ G1].
  destruct (Binary64.add_ge _ _ (Binary64.add_nonneg _ _ Hs Hd0) Hw) as [G2 _].
  assert (G : (9 <=? 0 + t + kwh * 0.23 + d + kg * 0.2) = true).
  { apply Binary64.leb_trans_nonneg with (b := d); [reflexivity | exact H9 |].
    apply Binary64.leb_trans_nonneg with (b := 0 + t + kwh * 0.23 + d);
      assumption. }
  split; [exact G |].
  apply Binary64.pos_leb with (b := 9); [reflexivity | exact G].
Qed.

Lemma diet_contribution_of_recognized_label_witness :
  exists total_co2e breakdown key coeff d,
    calculate_footprint 0 "Gasoline Car" 0 "Vegan" 0
    = Ok (total_co2e, breakdown)
    /\ diet_key "Vegan" = Some key
    /\ factor "diet" key = Ok coeff
    /\ Dict.get breakdown "Diet" = Some d
    /\ d = coeff * 30
    /\ (9 <=? d) = true
    /\ ((0 <=? 0) = true -> (0 <=? 0) = true -> (0 <=? 0) = true ->
        (9 <=? total_co2e) = true /\ (0 <? total_co2e) = true).
Proof.
  apply (diet_contribution_of_recognized_label 0 "Gasoline Car" 0 "Vegan" 0).
  simpl. auto 6.
Defined.

(** * Further properties of the page

    ** The order of the categories in the prompt *)

Lemma insert_desc_perm x l : Permutation (x :: l) (insert_desc x l).
Proof.
  induction l as [| y l IH]; simpl.
  - apply Permutation_refl.
  - destruct (snd y <? snd x).
    + apply Permutation_refl.
    + apply perm_trans with (y :: x :: l); [apply perm_swap |].
      apply perm_skip. exact IH.
Qed.

Lemma fold_insert_perm l acc :
  Permutation (acc ++ l)%list
    (fold_left (fun acc x => insert_desc x acc) l acc).
Proof.
  revert acc. induction l as [| x l IH]; intros acc; simpl.
  - rewrite app_nil_r. apply Permutation_refl.
  - eapply perm_trans; [| apply IH].
    apply perm_trans with ((x :: acc) ++ l)%list.
    + simpl. apply Permutation_sym, Permutation_middle.
    + apply Permutation_app_tail. apply insert_desc_perm.
Qed.

(** X5.  [sorted] loses no item and adds none: its result is the items of the
    breakdown in another order. *)
Theorem sorted_desc_permutation l : Permutation l (sorted_desc l).
Proof. exact (fold_insert_perm l []). Qed.

Lemma insert_desc_descending x l :
  (snd x =? snd x) = true ->
  (forall y, In y l -> (snd y =? snd y) = true) ->
  descending l -> descending (insert_desc x l).
Proof.
  unfold descending. intros Hx Hl Hs.
  induction l as [| y l IH]; simpl.
  - constructor; constructor.
  - apply StronglySorted_inv in Hs. destruct Hs as [Hs Hy].
    destruct (snd y <? snd x) eqn:L.
    + constructor; [constructor; assumption |].
      constructor; [apply Binary64.ltb_leb; exact L |].
      rewrite Forall_forall in Hy |- *. intros z Hz.
      apply Binary64.leb_trans with (y := snd y); [apply Hy; exact Hz |].
      apply Binary64.ltb_leb; exact L.
    + constructor.
      * apply IH; [intros z Hz; apply Hl; right; exact Hz | exact Hs].
      * rewrite Forall_forall in Hy |- *. intros z Hz.
        destruct (insert_desc_In _ _ _ Hz) as [-> | I].
        -- apply Binary64.leb_total; [apply Hl; left; reflexivity | exact Hx | exact L].
        -- apply Hy; exact I.
Qed.

Lemma fold_insert_descending l acc :
  (forall y, In y (acc ++ l)%list -> (snd y =? snd y) = true) ->
  descending acc ->
  descending (fold_left (fun acc x => insert_desc x acc) l acc).
Proof.
  revert acc. induction l as [| x l IH]; intros acc Hn Hs; simpl.
  - exact Hs.
  - apply IH.
    + intros y Hy. apply Hn. apply in_app_or in Hy.
      apply in_or_app. destruct Hy as [Hy | Hy].
      * destruct (insert_desc_In _ _ _ Hy) as [-> | I];
          [right; left; reflexivity | left; exact I].
      * right; right; exact Hy.
    + apply insert_desc_descending.
      * apply Hn. apply in_or_app. right; left; reflexivity.
      * intros y Hy. apply Hn. apply in_or_app. left; exact Hy.
      * exact Hs.
Qed.

(** X6.  When no contribution is NaN, the result of [sorted] is in descending
    order: no item has a smaller contribution than an item after it. *)
Theorem sorted_desc_descending l :
  (forall item, In item l -> (snd item =? snd item) = true) ->
  descending (sorted_desc l).
Proof.
  intros Hn. apply fold_insert_descending; [exact Hn | constructor].
Qed.

Lemma sorted_desc_descending_witness :
  descending (sorted_desc [ ("Transportation", 0); ("Electricity", 69);
                            ("Diet", 15); ("Waste", 69) ]).
Proof.
  apply (sorted_desc_descending
           [ ("Transportation", 0); ("Electricity", 69);
             ("Diet", 15); ("Waste", 69) ]).
  simpl. intros item [<- | [<- | [<- | [<- | []]]]]; reflexivity.
Defined.

(** Two categories with the same contribution. *)
Example sorted_desc_ties :
  sorted_desc [ ("Transportation", 0); ("Electricity", 69);
                ("Diet", 15); ("Waste", 69) ]
  = [ ("Electricity", 69); ("Waste", 69); ("Diet", 15);
      ("Transportation", 0) ].
Proof. vm_compute. reflexivity. Qed.

Lemma top_categories_eq b :
  top_categories b = join ", " (positive_categories b).
Proof. reflexivity. Qed.

Lemma positive_categories_In b cat :
  In cat (positive_categories b)
  <-> exists co2, In (cat, co2) (Dict.items b) /\ (0 <? co2) = true.
Proof.
  unfold positive_categories. rewrite in_map_iff. split.
  - intros [[c co2] [E H]]. simpl in E. subst c.
    apply filter_In in H. destruct H as [H P]. simpl in P.
    exists co2. split; [| exact P].
    apply Permutation_in with (l := sorted_desc (Dict.items b));
      [apply Permutation_sym, (fold_insert_perm (Dict.items b) [])
      | exact H].
  - intros [co2 [H P]]. exists (cat, co2). split; [reflexivity |].
    apply filter_In. split; [| exact P].
    apply Permutation_in with (l := Dict.items b);
      [apply (fold_insert_perm (Dict.items b) []) | exact H].
Qed.

(** X8.  The categories the prompt names are those of the breakdown whose
    contribution is positive: a zero, negative or NaN contribution is never
    named. *)
Theorem prompt_names_positive_categories b :
  top_categories b = join ", " (positive_categories b)
  /\ forall cat,
       In cat (positive_categories b)
       <-> exists co2, In (cat, co2) (Dict.items b) /\ (0 <? co2) = true.
Proof.
  split; [reflexivity |]. intros cat. apply positive_categories_In.
Qed.

Lemma concat_cons_nonempty sep x l :
  x <> "" -> String.concat sep (x :: l) <> "".
Proof.
  intros Hx. destruct x as [| c x]; [congruence |].
  destruct l; simpl; discriminate.
Qed.

Lemma top_categories_empty_iff b :
  (forall item, In item (Dict.items b) -> fst item <> "") ->
  (top_categories b = ""
   <-> forall cat co2, In (cat, co2) (Dict.items b) -> (0 <? co2) = false).
Proof.
  intros Hk. rewrite top_categories_eq. split.
  - intros E cat co2 I.
    destruct (0 <? co2) eqn:P; [| reflexivity]. exfalso.
    assert (J : In cat (positive_categories b))
      by (apply positive_categories_In; exists co2; auto).
    destruct (positive_categories b) as [| c l] eqn:PC; [destruct J |].
    revert E. apply concat_cons_nonempty.
    assert (Jc : In c (positive_categories b)) by (rewrite PC; left; reflexivity).
    apply positive_categories_In in Jc. destruct Jc as [co2' [I' _]].
    apply (Hk (c, co2') I').
  - intros H.
    destruct (positive_categories b) as [| c l] eqn:PC; [reflexivity |].
    assert (Jc : In c (positive_categories b)) by (rewrite PC; left; reflexivity).
    apply positive_categories_In in Jc. destruct Jc as [co2' [I' P]].
    rewrite (H _ _ I') in P. discriminate.
Qed.

(** X9.  For a breakdown whose categories have non-empty names, the section
    begins with the call of [get_gemini_response], on the prompt built from
    the total and the categories, exactly when some contribution is
    positive. *)
Theorem tips_requested_iff_positive
    (format_2f : float -> string)
    (get_gemini_response : string -> list action * string)
    (current : footprint) :
  (forall item, In item (Dict.items (breakdown current)) -> fst item <> "") ->
  (hd_error (personalized_tips format_2f get_gemini_response current)
   = Some (call_get_gemini_response
             (gemini_prompt format_2f (total current)
                (top_categories (breakdown current))))
   <-> exists cat co2,
         In (cat, co2) (Dict.items (breakdown current))
         /\ (0 <? co2) = true).
Proof.
  intros Hk. pose proof (top_categories_empty_iff (breakdown current) Hk) as E.
  unfold personalized_tips.
  destruct (String.eqb_spec (top_categories (breakdown current)) "") as [T | T];
    cbn [negb].
  - split; [discriminate |]. intros [cat [co2 [I P]]].
    rewrite (proj1 E T _ _ I) in P. discriminate.
  - split.
    + intros _.
      destruct (positive_categories (breakdown current)) as [| c l] eqn:PC.
      * exfalso. apply T. rewrite top_categories_eq, PC. reflexivity.
      * assert (Jc : In c (positive_categories (breakdown current)))
          by (rewrite PC; left; reflexivity).
        apply positive_categories_In in Jc. destruct Jc as [co2 [I P]].
        exists c, co2. auto.
    + intros _.
      destruct (get_gemini_response _) as [shown ai_tips]. reflexivity.
Qed.

Lemma tips_requested_iff_positive_witness :
  let current :=
    {| date := "2024-01-01"; total := -2.1;
       breakdown := [ ("Transportation", -2.1); ("Electricity", 0);
                      ("Diet", 0); ("Waste", 0) ] |} in
  hd_error (personalized_tips (fun _ => "-2.10") (fun _ => ([], "tips"))
              current)
  = Some (call_get_gemini_response
            (gemini_prompt (fun _ => "-2.10") (total current)
               (top_categories (breakdown current))))
  <-> exists cat co2,
        In (cat, co2) (Dict.items (breakdown current)) /\ (0 <? co2) = true.
Proof.
  intros current.
  apply (tips_requested_iff_positive
           (fun _ => "-2.10") (fun _ => ([], "tips")) current).
  simpl. intros item [<- | [<- | [<- | [<- | []]]]]; discriminate.
Defined.

Lemma insert_desc_with_contribution v x l :
  (forall y, In y l -> (snd y =? snd y) = true) ->
  descending l ->
  with_contribution v (insert_desc x l)
  = (with_contribution v l ++ with_contribution v [x])%list.
Proof.
  unfold with_contribution, descending. intros Hl Hs.
  induction l as [| y l IH]; cbn [insert_desc].
  - reflexivity.
  - apply StronglySorted_inv in Hs. destruct Hs as [Hs Hy].
    destruct (snd y <? snd x) eqn:L.
    + cbn [filter app].
      destruct (snd x =? v) eqn:Ex; [| rewrite app_nil_r; reflexivity].
      assert (N : forall z, In z (y :: l) -> (snd z =? v) = false).
      { intros z Hz. destruct (snd z =? v) eqn:Ez; [| reflexivity]. exfalso.
        apply Binary64.eqb_leb in Ex. apply Binary64.eqb_leb in Ez.
        destruct Ex as [Ex1 Ex2]. destruct Ez as [Ez1 Ez2].
        assert (Zy : (snd z <=? snd y) = true).
        { destruct Hz as [<- | Hz].
          - apply Binary64.eqb_refl_leb. apply Hl. left; reflexivity.
          - rewrite Forall_forall in Hy. apply Hy; exact Hz. }
        pose proof (Binary64.ltb_not_leb _ _ L) as NL.
        rewrite (Binary64.leb_trans _ _ _ Ex1 (Binary64.leb_trans _ _ _ Ez2 Zy)) in NL.
        discriminate. }
      assert (F : filter (fun item => snd item =? v) (y :: l) = []).
      { apply filter_nil_iff. exact N. }
      cbn [filter] in F. rewrite F. reflexivity.
    + cbn [filter]. rewrite IH;
        [| intros z Hz; apply Hl; right; exact Hz | exact Hs].
      destruct (snd y =? v); reflexivity.
Qed.

Lemma fold_insert_with_contribution v l acc :
  (forall y, In y (acc ++ l)%list -> (snd y =? snd y) = true) ->
  descending acc ->
  with_contribution v (fold_left (fun acc x => insert_desc x acc) l acc)
  = (with_contribution v acc ++ with_contribution v l)%list.
Proof.
  revert acc. induction l as [| x l IH]; intros acc Hn Hs; cbn [fold_left].
  - unfold with_contribution at 3. cbn [filter]. rewrite app_nil_r. reflexivity.
  - rewrite IH.
    + rewrite insert_desc_with_contribution;
        [| intros y Hy; apply Hn; apply in_or_app; left; exact Hy | exact Hs].
      rewrite <- app_assoc. f_equal.
      unfold with_contribution. cbn [filter].
      destruct (snd x =? v); reflexivity.
    + intros y Hy. apply Hn. apply in_app_or in Hy.
      apply in_or_app. destruct Hy as [Hy | Hy].
      * destruct (insert_desc_In _ _ _ Hy) as [-> | I];
          [right; left; reflexivity | left; exact I].
      * right; right; exact Hy.
    + apply insert_desc_descending.
      * apply Hn. apply in_or_app. right; left; reflexivity.
      * intros y Hy. apply Hn. apply in_or_app. left; exact Hy.
      * exact Hs.
Qed.

(** X7.  [sorted] is stable: when no contribution is NaN, the items that share
    a contribution come out in the order they have in the breakdown. *)
Theorem sorted_desc_stable l v :
  (forall item, In item l -> (snd item =? snd item) = true) ->
  with_contribution v (sorted_desc l) = with_contribution v l.
Proof.
  intros Hn. unfold sorted_desc.
  rewrite fold_insert_with_contribution; [reflexivity | exact Hn | constructor].
Qed.

Lemma sorted_desc_stable_witness :
  with_contribution 69
    (sorted_desc [ ("Transportation", 0); ("Electricity", 69);
                   ("Diet", 15); ("Waste", 69) ])
  = with_contribution 69
      [ ("Transportation", 0); ("Electricity", 69);
        ("Diet", 15); ("Waste", 69) ].
Proof.
  apply (sorted_desc_stable
           [ ("Transportation", 0); ("Electricity", 69);
             ("Diet", 15); ("Waste", 69) ] 69).
  simpl. intros item [<- | [<- | [<- | [<- | []]]]]; reflexivity.
Defined.

(** ** The calculation *)

Lemma breakdown_get (t e d w : float) cat c :
  Dict.get [ ("Transportation", t); ("Electricity", e);
             ("Diet", d); ("Waste", w) ] cat = Some c ->
  c = t \/ c = e \/ c = d \/ c = w.
Proof.
  simpl.
  destruct (String.eqb cat "Transportation"); [intros [= <-]; auto |].
  destruct (String.eqb cat "Electricity"); [intros [= <-]; auto |].
  destruct (String.eqb cat "Diet"); [intros [= <-]; auto |].
  destruct (String.eqb cat "Waste"); [intros [= <-]; auto | discriminate].
Qed.

(** The partial sums of non-negative contributions. *)
Lemma partial_sums t e d w :
  (0 <=? t) = true -> (0 <=? e) = true ->
  (0 <=? d) = true -> (0 <=? w) = true ->
  (0 <=? 0 + t + e + d + w) = true
  /\ (t <=? 0 + t + e + d + w) = true
  /\ (e <=? 0 + t + e + d + w) = true
  /\ (d <=? 0 + t + e + d + w) = true
  /\ (w <=? 0 + t + e + d + w) = true.
Proof.
  intros Ht He Hd Hw.
  assert (H0 : (0 <=? (0 : float)) = true) by reflexivity.
  pose proof (Binary64.add_nonneg 0 t H0 Ht) as N1.
  pose proof (Binary64.add_nonneg _ _ N1 He) as N2.
  pose proof (Binary64.add_nonneg _ _ N2 Hd) as N3.
  pose proof (Binary64.add_nonneg _ _ N3 Hw) as N4.
  destruct (Binary64.add_ge 0 t H0 Ht) as [_ A1].
  destruct (Binary64.add_ge _ _ N1 He) as [A2 B2].
  destruct (Binary64.add_ge _ _ N2 Hd) as [A3 B3].
  destruct (Binary64.add_ge _ _ N3 Hw) as [A4 B4].
  split; [exact N4 |]. split; [| split; [| split]].
  - apply Binary64.leb_trans with (y := 0 + t); [exact A1 |].
    apply Binary64.leb_trans with (y := 0 + t + e); [exact A2 |].
    apply Binary64.leb_trans with (y := 0 + t + e + d); assumption.
  - apply Binary64.leb_trans with (y := 0 + t + e); [exact B2 |].
    apply Binary64.leb_trans with (y := 0 + t + e + d); assumption.
  - apply Binary64.leb_trans with (y := 0 + t + e + d); assumption.
  - exact B4.
Qed.

(** X1.  With non-negative numeric inputs the total is non-negative and every
    contribution lies between 0 and the total; in particular none is NaN
    and the shares of the pie chart are well defined. *)
Theorem contributions_within_total km ty kwh diet kg :
  (0 <=? km) = true -> (0 <=? kwh) = true -> (0 <=? kg) = true ->
  exists total_co2e bd,
    calculate_footprint km ty kwh diet kg = Ok (total_co2e, bd)
    /\ (0 <=? total_co2e) = true
    /\ forall category c,
         Dict.get bd category = Some c ->
         (0 <=? c) = true /\ (c <=? total_co2e) = true.
Proof.
  intros Hkm Hkwh Hkg.
  destruct (calculate_footprint_eq km ty kwh diet kg) as [t [d [E [Ht Hd]]]].
  pose proof (transport_part_nonneg km ty t Hkm Ht) as Nt.
  pose proof (diet_part_nonneg diet d Hd) as Nd.
  assert (Ne : (0 <=? kwh * 0.23) = true)
    by (apply Binary64.mul_nonneg; [reflexivity | reflexivity | exact Hkwh]).
  assert (Nw : (0 <=? kg * 0.2) = true)
    by (apply Binary64.mul_nonneg; [reflexivity | reflexivity | exact Hkg]).
  destruct (partial_sums _ _ _ _ Nt Ne Nd Nw) as [P0 [P1 [P2 [P3 P4]]]].
  do 2 eexists. split; [exact E |]. split; [exact P0 |].
  intros category c G.
  destruct (breakdown_get _ _ _ _ _ _ G) as [-> | [-> | [-> | ->]]]; auto.
Qed.

Lemma contributions_within_total_witness :
  exists total_co2e bd,
    calculate_footprint 500 "Gasoline Car" 300 "Vegetarian" 15
    = Ok (total_co2e, bd)
    /\ (0 <=? total_co2e) = true
    /\ forall category c,
         Dict.get bd category = Some c ->
         (0 <=? c) = true /\ (c <=? total_co2e) = true.
Proof.
  apply (contributions_within_total 500 "Gasoline Car" 300 "Vegetarian" 15);
    reflexivity.
Defined.

(** Sums of four non-negative contributions, one of which grows. *)
Lemma total_mono t t' e e' d d' w w' :
  (0 <=? t) = true -> (0 <=? e) = true ->
  (0 <=? d) = true -> (0 <=? w) = true ->
  (t <=? t') = true -> (e <=? e') = true ->
  (d <=? d') = true -> (w <=? w') = true ->
  (0 + t + e + d + w <=? 0 + t' + e' + d' + w') = true.
Proof.
  intros Ht He Hd Hw Lt Le Ld Lw.
  assert (H0 : (0 <=? (0 : float)) = true) by reflexivity.
  assert (Ht' : (0 <=? t') = true) by (apply Binary64.leb_trans with (y := t); auto).
  assert (He' : (0 <=? e') = true) by (apply Binary64.leb_trans with (y := e); auto).
  assert (Hd' : (0 <=? d') = true) by (apply Binary64.leb_trans with (y := d); auto).
  pose proof (Binary64.add_nonneg 0 t H0 Ht) as N1.
  pose proof (Binary64.add_nonneg _ _ N1 He) as N2.
  pose proof (Binary64.add_nonneg _ _ N2 Hd) as N3.
  pose proof (Binary64.add_nonneg 0 t' H0 Ht') as N1'.
  pose proof (Binary64.add_nonneg _ _ N1' He') as N2'.
  pose proof (Binary64.add_nonneg _ _ N2' Hd') as N3'.
  assert (S1 : (0 + t <=? 0 + t') = true) by (apply Binary64.add_le_mono_r; auto).
  assert (S2 : (0 + t + e <=? 0 + t' + e') = true).
  { apply Binary64.leb_trans with (y := 0 + t' + e).
    - apply Binary64.add_le_mono_l; auto.
    - apply Binary64.add_le_mono_r; auto. }
  assert (S3 : (0 + t + e + d <=? 0 + t' + e' + d') = true).
  { apply Binary64.leb_trans with (y := 0 + t' + e' + d).
    - apply Binary64.add_le_mono_l; auto.
    - apply Binary64.add_le_mono_r; auto. }
  apply Binary64.leb_trans with (y := 0 + t' + e' + d' + w).
  - apply Binary64.add_le_mono_l; auto.
  - apply Binary64.add_le_mono_r; auto.
Qed.

(** X2.  With non-negative numeric inputs, replacing one of them by a value that
    is not smaller does not lower the total, the rounding of the sums
    notwithstanding. *)
Theorem total_monotone (a : activity) (i : numeric_input) (v : float) :
  (0 <=? transport_km a) = true ->
  (0 <=? electricity_kwh a) = true ->
  (0 <=? waste_kg a) = true ->
  (get_input i a <=? v) = true ->
  exists total_co2e bd total_co2e' bd',
    calculate a = Ok (total_co2e, bd)
    /\ calculate (set_input i v a) = Ok (total_co2e', bd')
    /\ (total_co2e <=? total_co2e') = true.
Proof.
  intros Hkm Hkwh Hkg Hle.
  destruct (calculate_eq a) as [t [d [E [Ht Hd]]]].
  destruct (calculate_eq (set_input i v a)) as [t' [d' [E' [Ht' Hd']]]].
  rewrite E, E'. do 4 eexists. split; [reflexivity |].
  split; [reflexivity |]. clear E E'.
  destruct a as [km ty kwh diet kg].
  cbn [transport_km transport_type electricity_kwh diet_choice waste_kg] in *.
  pose proof (transport_part_nonneg km ty t Hkm Ht) as Nt.
  pose proof (diet_part_nonneg diet d Hd) as Nd.
  assert (Ne : (0 <=? kwh * 0.23) = true)
    by (apply Binary64.mul_nonneg; [reflexivity | reflexivity | exact Hkwh]).
  assert (Nw : (0 <=? kg * 0.2) = true)
    by (apply Binary64.mul_nonneg; [reflexivity | reflexivity | exact Hkg]).
  destruct i; cbn [get_input set_input transport_km transport_type
                   electricity_kwh diet_choice waste_kg] in *.
  - assert (d' = d) by (eapply diet_part_fun; eassumption). subst d'.
    apply total_mono; try assumption;
      try (apply Binary64.leb_refl_nonneg; assumption).
    apply (transport_part_mono km v ty); assumption.
  - assert (t' = t) by (eapply transport_part_fun; eassumption). subst t'.
    assert (d' = d) by (eapply diet_part_fun; eassumption). subst d'.
    apply total_mono; try assumption;
      try (apply Binary64.leb_refl_nonneg; assumption).
    apply Binary64.mul_le_mono; [reflexivity | reflexivity | exact Hle].
  - assert (t' = t) by (eapply transport_part_fun; eassumption). subst t'.
    assert (d' = d) by (eapply diet_part_fun; eassumption). subst d'.
    apply total_mono; try assumption;
      try (apply Binary64.leb_refl_nonneg; assumption).
    apply Binary64.mul_le_mono; [reflexivity | reflexivity | exact Hle].
Qed.

Lemma total_monotone_witness :
  let a := {| transport_km := 500; transport_type := "Gasoline Car";
              electricity_kwh := 300; diet_choice := "Vegetarian";
              waste_kg := 15 |} in
  exists total_co2e bd total_co2e' bd',
    calculate a = Ok (total_co2e, bd)
    /\ calculate (set_input in_waste_kg 20 a) = Ok (total_co2e', bd')
    /\ (total_co2e <=? total_co2e') = true.
Proof.
  intros a. apply (total_monotone a in_waste_kg 20); reflexivity.
Defined.

(** X3.  Of two recognized transport labels, the one whose coefficient in the
    table is not larger gives, for the same non-negative inputs, a
    Transportation contribution and a total that are not larger. *)
Theorem cheaper_coefficient km kwh diet kg ty ty' key key' f f' :
  (0 <=? km) = true -> (0 <=? kwh) = true -> (0 <=? kg) = true ->
  transport_key ty = Some key -> factor "transportation" key = Ok f ->
  transport_key ty' = Some key' -> factor "transportation" key' = Ok f' ->
  (f <=? f') = true ->
  exists t T t' T',
    contribution (calculate_footprint km ty kwh diet kg) "Transportation"
    = Some t
    /\ contribution (calculate_footprint km ty' kwh diet kg) "Transportation"
       = Some t'
    /\ total_of (calculate_footprint km ty kwh diet kg) = Some T
    /\ total_of (calculate_footprint km ty' kwh diet kg) = Some T'
    /\ (t <=? t') = true /\ (T <=? T') = true.
Proof.
  intros Hkm Hkwh Hkg K F K' F' Hle.
  destruct (calculate_footprint_eq km ty kwh diet kg) as [t [d [E [Ht Hd]]]].
  destruct (calculate_footprint_eq km ty' kwh diet kg)
    as [t' [d' [E' [Ht' Hd']]]].
  rewrite E, E'. cbn [contribution total_of Dict.get String.eqb].
  assert (d' = d) by (eapply diet_part_fun; eassumption). subst d'.
  pose proof (transport_part_nonneg km ty t Hkm Ht) as Nt.
  pose proof (diet_part_nonneg diet d Hd) as Nd.
  unfold transport_part in Ht, Ht'. rewrite K in Ht. rewrite K' in Ht'.
  destruct Ht as [g [G ->]]. destruct Ht' as [g' [G' ->]].
  assert (g = f) by congruence. assert (g' = f') by congruence. subst g g'.
  destruct (transport_factor_pos ty key f K F) as [P1 _].
  destruct (transport_factor_pos ty' key' f' K' F') as [_ P2'].
  assert (L : (km * f <=? km * f') = true)
    by (apply Binary64.mul_le_mono_coeff; assumption).
  do 4 eexists. repeat (split; [reflexivity |]). split; [exact L |].
  assert (Ne : (0 <=? kwh * 0.23) = true)
    by (apply Binary64.mul_nonneg; [reflexivity | reflexivity | exact Hkwh]).
  assert (Nw : (0 <=? kg * 0.2) = true)
    by (apply Binary64.mul_nonneg; [reflexivity | reflexivity | exact Hkg]).
  apply total_mono; try assumption; apply Binary64.leb_refl_nonneg; assumption.
Qed.

Lemma cheaper_coefficient_witness :
  exists t T t' T',
    contribution (calculate_footprint 500 "Public Transport" 300 "Vegan" 15)
                 "Transportation" = Some t
    /\ contribution (calculate_footprint 500 "Gasoline Car" 300 "Vegan" 15)
                    "Transportation" = Some t'
    /\ total_of (calculate_footprint 500 "Public Transport" 300 "Vegan" 15)
       = Some T
    /\ total_of (calculate_footprint 500 "Gasoline Car" 300 "Vegan" 15)
       = Some T'
    /\ (t <=? t') = true /\ (T <=? T') = true.
Proof.
  apply (cheaper_coefficient 500 300 "Vegan" 15
           "Public Transport" "Gasoline Car"
           "public_transport_km" "gasoline_car_km" 0.04 0.21);
    reflexivity.
Defined.

(** X4.  On floats, and on the integers Python converts to floats, each
    category is computed from its own inputs alone: the distance and the
    transport label, the electricity, the diet label, the waste; and the
    total is their sum from left to right, starting from 0. *)
Theorem contributions_are_separate :
  exists (transport : float -> string -> float) (electricity : float -> float)
         (diet : string -> float) (waste : float -> float),
    forall km ty kwh d kg,
      calculate_footprint km ty kwh d kg
      = Ok (0 + transport km ty + electricity kwh + diet d + waste kg,
            [ ("Transportation", transport km ty);
              ("Electricity", electricity kwh);
              ("Diet", diet d); ("Waste", waste kg) ]).
Proof.
  exists (fun km ty =>
            match contribution (calculate_footprint km ty 0 "" 0)
                               "Transportation" with
            | Some t => t | None => 0 end),
         (fun kwh => kwh * 0.23),
         (fun d =>
            match contribution (calculate_footprint 0 "" 0 d 0) "Diet" with
            | Some x => x | None => 0 end),
         (fun kg => kg * 0.2).
  intros km ty kwh d kg.
  destruct (calculate_footprint_eq km ty kwh d kg) as [t [x [E [Ht Hx]]]].
  destruct (calculate_footprint_eq km ty 0 "" 0) as [t1 [x1 [E1 [Ht1 _]]]].
  destruct (calculate_footprint_eq 0 "" 0 d 0) as [t2 [x2 [E2 [_ Hx2]]]].
  rewrite E, E1, E2. cbn [contribution Dict.get String.eqb].
  rewrite (transport_part_fun _ _ _ _ Ht1 Ht), (diet_part_fun _ _ _ Hx2 Hx).
  reflexivity.
Qed.

(** ** The session *)

(** Every click leaves a state. *)
Lemma on_click_ok c st :
  exists st', on_click c st = Ok st'.
Proof.
  destruct c as [today a |]; cbn [on_click].
  - destruct (on_calculate_appends today (transport_km a) (transport_type a)
                (electricity_kwh a) (diet_choice a) (waste_kg a) st)
      as [r [E _]].
    eexists; exact E.
  - eexists; reflexivity.
Qed.

(** An invariant of the states is kept by every sequence of clicks, each of
    which leaves a state. *)
Lemma run_clicks_invariant (P : session_state -> Prop) :
  (forall c st st', P st -> on_click c st = Ok st' -> P st') ->
  forall cs st, P st -> exists st', run_clicks cs st = Ok st' /\ P st'.
Proof.
  intros Step cs. induction cs as [| c cs IH]; intros st H; cbn [run_clicks].
  - exists st. split; [reflexivity | exact H].
  - destruct (on_click_ok c st) as [st1 E]. rewrite E. cbn [bind].
    apply IH. apply (Step c st st1 H E).
Qed.

Lemma on_click_cases c st st' :
  on_click c st = Ok st' ->
  match c with
  | click_calculate today a =>
      exists total_co2e bd,
        calculate a = Ok (total_co2e, bd)
        /\ st' = {| footprint_history :=
                      append (footprint_history st)
                        {| date := today; total := total_co2e;
                           breakdown := bd |};
                    current_footprint :=
                      Some {| date := today; total := total_co2e;
                              breakdown := bd |} |}
  | click_reset => st' = init_session
  end.
Proof.
  destruct c as [today a |]; cbn [on_click].
  - unfold on_calculate. fold (calculate a).
    destruct (calculate_eq a) as [t [d [E _]]]. rewrite E. cbn [bind].
    intros [= <-]. do 2 eexists. split; reflexivity.
  - intros [= <-]. reflexivity.
Qed.

(** X11.  In every state of the session that clicks on the two buttons
    lead to from its start, the current footprint is the last record of
    the history: there is none exactly when the history is empty. *)
Theorem current_is_last_of_history cs st :
  run_clicks cs init_session = Ok st ->
  last (map Some (footprint_history st)) None = current_footprint st.
Proof.
  intros R.
  destruct (run_clicks_invariant
              (fun st => last (map Some (footprint_history st)) None
                         = current_footprint st)) with (cs := cs)
                                                      (st := init_session)
    as [st' [R' H]].
  - intros c st0 st1 H E. apply on_click_cases in E.
    destruct c as [today a |].
    + destruct E as [T [bd [_ ->]]].
      cbn [footprint_history current_footprint].
      unfold append. rewrite map_app. apply last_last.
    + subst st1. reflexivity.
  - reflexivity.
  - rewrite R in R'. injection R' as <-. exact H.
Qed.

Lemma current_is_last_of_history_witness :
  let record :=
    {| date := "2024-01-01"; total := 192;
       breakdown := [ ("Transportation", 105); ("Electricity", 69);
                      ("Diet", 15); ("Waste", 3) ] |} in
  let st := {| footprint_history := [ record ];
               current_footprint := Some record |} in
  last (map Some (footprint_history st)) None = current_footprint st.
Proof.
  intros record st.
  apply (current_is_last_of_history
           [ click_reset;
             click_calculate "2024-01-01"
               {| transport_km := 500; transport_type := "Gasoline Car";
                  electricity_kwh := 300; diet_choice := "Vegetarian";
                  waste_kg := 15 |} ] st).
  vm_compute. reflexivity.
Defined.

Lemma calculations_since_reset_app cs c :
  calculations_since_reset (cs ++ [c])
  = match c with
    | click_calculate _ _ => S (calculations_since_reset cs)
    | click_reset => O
    end.
Proof. unfold calculations_since_reset. rewrite fold_left_app. reflexivity. Qed.

Lemma run_clicks_app cs cs' st :
  run_clicks (cs ++ cs') st = (st' <- run_clicks cs st ;; run_clicks cs' st').
Proof.
  revert st. induction cs as [| c cs IH]; intros st; cbn [run_clicks app].
  - reflexivity.
  - destruct (on_click c st) as [st1 | e]; cbn [bind]; [apply IH | reflexivity].
Qed.

(** X12.  The history holds one record for each calculation since the last
    reset. *)
Theorem one_record_per_calculation cs :
  exists st,
    run_clicks cs init_session = Ok st
    /\ length (footprint_history st) = calculations_since_reset cs.
Proof.
  induction cs as [| c cs IH] using rev_ind.
  - exists init_session. split; reflexivity.
  - destruct IH as [st [E L]].
    rewrite run_clicks_app, E. cbn [bind run_clicks].
    destruct (on_click_ok c st) as [st' E']. rewrite E'. cbn [bind].
    exists st'. split; [reflexivity |].
    rewrite calculations_since_reset_app. apply on_click_cases in E'.
    destruct c as [today a |].
    + destruct E' as [T [bd [_ ->]]]. cbn [footprint_history].
      unfold append. rewrite length_app. simpl. rewrite Nat.add_1_r.
      f_equal. exact L.
    + subst st'. reflexivity.
Qed.

(** X13.  Every record of the history has the four categories, in their order,
    and a total that is the sum of the values of its breakdown, to the
    last bit. *)
Theorem stored_records_are_consistent cs :
  exists st,
    run_clicks cs init_session = Ok st
    /\ Forall (fun r => Dict.keys (breakdown r) = categories
                        /\ total r = py_sum (Dict.values (breakdown r)))
              (footprint_history st).
Proof.
  apply (run_clicks_invariant
           (fun st => Forall (fun r => Dict.keys (breakdown r) = categories
                                       /\ total r
                                          = py_sum (Dict.values (breakdown r)))
                             (footprint_history st))); [| constructor].
  intros c st st' H E. apply on_click_cases in E.
  destruct c as [today a |].
  - destruct E as [T [bd [C ->]]]. cbn [footprint_history].
    unfold append. apply Forall_app. split; [exact H |].
    constructor; [| constructor]. cbn [breakdown total].
    destruct (calculate_eq a) as [t [d [E _]]]. rewrite E in C.
    injection C as <- <-. split; reflexivity.
  - subst st'. constructor.
Qed.

Lemma calculate_from_widgets a :
  from_widgets a ->
  exists t e d w,
    calculate a
    = Ok (0 + t + e + d + w,
          [ ("Transportation", t); ("Electricity", e);
            ("Diet", d); ("Waste", w) ])
    /\ (0 <=? t) = true /\ (0 <=? e) = true
    /\ (9 <=? d) = true /\ (0 <=? w) = true.
Proof.
  intros [Hkm [Hkwh [Hkg [_ Id]]]].
  destruct (calculate_eq a) as [t [d [E [Ht Hd]]]].
  exists t, (electricity_kwh a * 0.23), d, (waste_kg a * 0.2).
  split; [exact E |].
  split; [apply (transport_part_nonneg _ _ _ Hkm Ht) |].
  split; [apply Binary64.mul_nonneg; [reflexivity | reflexivity | exact Hkwh] |].
  split; [| apply Binary64.mul_nonneg; [reflexivity | reflexivity | exact Hkg]].
  destruct (diet_part_cases _ _ Hd) as [[_ J] | [N _]]; [| contradiction].
  simpl in J. destruct J as [<- | [<- | [<- | [<- | [<- | []]]]]]; reflexivity.
Qed.

Lemma nine_nonneg d : (9 <=? d) = true -> (0 <=? d) = true.
Proof. apply Binary64.leb_trans. reflexivity. Qed.

(** X14.  When the calculations are made on values the widgets can deliver,
    every record of the history has a total of at least 9.0 and
    contributions between 0 and the total. *)
Theorem records_from_widgets cs :
  Forall click_from_widgets cs ->
  exists st,
    run_clicks cs init_session = Ok st
    /\ Forall (fun r => (9 <=? total r) = true
                        /\ forall category c,
                             Dict.get (breakdown r) category = Some c ->
                             (0 <=? c) = true /\ (c <=? total r) = true)
              (footprint_history st).
Proof.
  set (Q := fun r : footprint =>
              (9 <=? total r) = true
              /\ forall category c,
                   Dict.get (breakdown r) category = Some c ->
                   (0 <=? c) = true /\ (c <=? total r) = true).
  intros W.
  assert (G : forall cs st,
             Forall click_from_widgets cs ->
             Forall Q (footprint_history st) ->
             exists st', run_clicks cs st = Ok st'
                         /\ Forall Q (footprint_history st')).
  { clear cs W. induction cs as [| c cs IH]; intros st W H; cbn [run_clicks].
    - exists st. split; [reflexivity | exact H].
    - apply Forall_cons_iff in W. destruct W as [Wc W].
      destruct (on_click_ok c st) as [st1 E]. rewrite E. cbn [bind].
      apply IH; [exact W |]. apply on_click_cases in E.
      destruct c as [today a |].
      + destruct E as [T [bd [C ->]]]. cbn [footprint_history].
        unfold append. apply Forall_app. split; [exact H |].
        constructor; [| constructor]. unfold Q. cbn [breakdown total].
        destruct (calculate_from_widgets a Wc)
          as [t [e [d [w [E [Nt [Ne [Nd Nw]]]]]]]].
        rewrite E in C. injection C as <- <-.
        destruct (partial_sums t e d w Nt Ne (nine_nonneg d Nd) Nw)
          as [P0 [P1 [P2 [P3 P4]]]].
        split; [apply Binary64.leb_trans with (y := d); assumption |].
        intros category c G.
        destruct (breakdown_get _ _ _ _ _ _ G) as [-> | [-> | [-> | ->]]];
          auto using nine_nonneg.
      + subst st1. constructor. }
  apply G; [exact W | constructor].
Qed.

Lemma records_from_widgets_witness :
  exists st,
    run_clicks
      [ click_calculate "2024-01-01"
          {| transport_km := 500; transport_type := "Gasoline Car";
             electricity_kwh := 300; diet_choice := "Vegetarian";
             waste_kg := 15 |} ] init_session = Ok st
    /\ Forall (fun r => (9 <=? total r) = true
                        /\ forall category c,
                             Dict.get (breakdown r) category = Some c ->
                             (0 <=? c) = true /\ (c <=? total r) = true)
              (footprint_history st).
Proof.
  apply (records_from_widgets
           [ click_calculate "2024-01-01"
               {| transport_km := 500; transport_type := "Gasoline Car";
                  electricity_kwh := 300; diet_choice := "Vegetarian";
                  waste_kg := 15 |} ]).
  constructor; [| constructor].
  cbv [click_from_widgets from_widgets transport_km electricity_kwh waste_kg
       transport_type diet_choice].
  repeat split; simpl; auto 6.
Defined.

(** X10.  After a calculation on values the widgets can deliver, the tips are
    requested, with Diet among the categories named: the branch that shows
    the message that no tips are needed is not taken. *)
Theorem tips_requested_after_calculation
    (format_2f : float -> string)
    (get_gemini_response : string -> list action * string)
    today (a : activity) (st : session_state) :
  from_widgets a ->
  exists st' r,
    on_click (click_calculate today a) st = Ok st'
    /\ current_footprint st' = Some r
    /\ hd_error (personalized_tips format_2f get_gemini_response r)
       = Some (call_get_gemini_response
                 (gemini_prompt format_2f (total r)
                    (top_categories (breakdown r))))
    /\ In "Diet" (positive_categories (breakdown r)).
Proof.
  intros W.
  destruct (calculate_from_widgets a W) as [t [e [d [w [E [Nt [Ne [Nd Nw]]]]]]]].
  destruct (on_click_ok (click_calculate today a) st) as [st' E'].
  pose proof (on_click_cases _ _ _ E') as C. cbn beta iota in C.
  destruct C as [T [bd [C ->]]]. rewrite E in C. injection C as <- <-.
  do 2 eexists. split; [exact E' |]. split; [reflexivity |].
  cbn [breakdown total].
  assert (Pd : (0 <? d) = true)
    by (apply Binary64.pos_leb with (b := 9); [reflexivity | exact Nd]).
  assert (I : In "Diet"
                (positive_categories
                   [ ("Transportation", t); ("Electricity", e);
                     ("Diet", d); ("Waste", w) ])).
  { apply positive_categories_In. exists d. split; [| exact Pd].
    simpl. auto. }
  split; [| exact I].
  unfold personalized_tips. cbn [breakdown total].
  destruct (String.eqb_spec
              (top_categories [ ("Transportation", t); ("Electricity", e);
                                ("Diet", d); ("Waste", w) ]) "") as [Z | NZ];
    cbn [negb].
  - exfalso.
    assert (K : forall item,
               In item (Dict.items [ ("Transportation", t); ("Electricity", e);
                                     ("Diet", d); ("Waste", w) ]) ->
               fst item <> "").
    { simpl. intros item [<- | [<- | [<- | [<- | []]]]]; discriminate. }
    pose proof (proj1 (top_categories_empty_iff _ K) Z "Diet" d) as F.
    rewrite F in Pd; [discriminate | simpl; auto].
  - destruct (get_gemini_response _) as [shown ai_tips]. reflexivity.
Qed.

Lemma tips_requested_after_calculation_witness :
  let a := {| transport_km := 0; transport_type := "Flight";
              electricity_kwh := 0; diet_choice := "Vegan";
              waste_kg := 0 |} in
  exists st' r,
    on_click (click_calculate "2024-01-01" a) init_session = Ok st'
    /\ current_footprint st' = Some r
    /\ hd_error (personalized_tips (fun _ => "9.00") (fun _ => ([], "tips")) r)
       = Some (call_get_gemini_response
                 (gemini_prompt (fun _ => "9.00") (total r)
                    (top_categories (breakdown r))))
    /\ In "Diet" (positive_categories (breakdown r)).
Proof.
  intros a.
  apply (tips_requested_after_calculation
           (fun _ => "9.00") (fun _ => ([], "tips")) "2024-01-01" a
           init_session).
  cbv [from_widgets a transport_km electricity_kwh waste_kg
       transport_type diet_choice].
  repeat split; simpl; auto 6.
Defined.

Lemma run_clicks_ok cs st : exists st', run_clicks cs st = Ok st'.
Proof.
  destruct (run_clicks_invariant (fun _ => True) (fun _ _ _ _ _ => I) cs st I)
    as [st' [E _]].
  exists st'. exact E.
Qed.

(** X15.  A reset forgets all that came before it. *)
Theorem reset_forgets cs cs' :
  run_clicks (cs ++ click_reset :: cs') init_session
  = run_clicks cs' init_session.
Proof.
  rewrite run_clicks_app.
  destruct (run_clicks_ok cs init_session) as [st E]. rewrite E.
  reflexivity.
Qed.

(** X16.  Calculations only append: the records that were in the history stay
    in place, and one record is added for each calculation. *)
Theorem calculations_only_append cs cs' :
  forallb is_calculation cs' = true ->
  exists st st' added,
    run_clicks cs init_session = Ok st
    /\ run_clicks (cs ++ cs') init_session = Ok st'
    /\ footprint_history st' = (footprint_history st ++ added)%list
    /\ length added = length cs'.
Proof.
  intros H. rewrite run_clicks_app.
  destruct (run_clicks_ok cs init_session) as [st E]. rewrite E.
  cbn [bind]. exists st. clear E. revert st.
  induction cs' as [| c cs' IH]; intros st.
  - exists st, []. rewrite app_nil_r. repeat split.
  - cbn [forallb] in H. apply andb_prop in H. destruct H as [Hc H].
    cbn [run_clicks]. destruct (on_click_ok c st) as [st1 E1].
    rewrite E1. cbn [bind].
    destruct (IH H st1) as [st' [added [_ [R [A L]]]]].
    apply on_click_cases in E1.
    destruct c as [today a |]; [| discriminate Hc].
    destruct E1 as [T [bd [_ ->]]]. cbn [footprint_history] in A.
    unfold append in A. rewrite <- app_assoc in A.
    eexists st', _. split; [reflexivity |]. split; [exact R |].
    split; [exact A |]. simpl. f_equal. exact L.
Qed.

Lemma calculations_only_append_witness :
  exists st st' added,
    run_clicks [ click_reset ] init_session = Ok st
    /\ run_clicks ([ click_reset ]
                   ++ [ click_calculate "2024-01-01"
                          {| transport_km := 500;
                             transport_type := "Gasoline Car";
                             electricity_kwh := 300;
                             diet_choice := "Vegetarian";
                             waste_kg := 15 |} ]) init_session = Ok st'
    /\ footprint_history st' = (footprint_history st ++ added)%list
    /\ length added = 1%nat.
Proof.
  apply (calculations_only_append [ click_reset ]
           [ click_calculate "2024-01-01"
               {| transport_km := 500; transport_type := "Gasoline Car";
                  electricity_kwh := 300; diet_choice := "Vegetarian";
                  waste_kg := 15 |} ]).
  reflexivity.
Defined.

(** * [get_gemini_response] *)

Module GeminiFacts.

Import Gemini.

Section ExchangeFacts.

Variable json_dumps : json -> string.
Variable exchange : string -> Dict.t string -> string -> attempt json.
Variable str : py_exception -> string.


(** X17.  An answer of the documented shape, an object whose first candidate has
    a content with a first part: what is returned is the text of that part,
    or a fixed message when the part has none; nothing else of the answer
    matters and no error is shown. *)
Theorem text_of_first_part prompt d c rest ct p rest' :
  send json_dumps exchange prompt = Done (JDict d) ->
  Dict.get d "candidates" = Some (JList (JDict c :: rest)) ->
  Dict.get c "content" = Some (JDict ct) ->
  Dict.get ct "parts" = Some (JList (JDict p :: rest')) ->
  get_gemini_response json_dumps exchange str prompt
  = ([], match Dict.get p "text" with
         | Some text => text
         | None => JStr "No text content found."
         end).
Proof.
  intros S C1 C2 C3.
  assert (T : truthy (JDict ct) = true).
  { destruct ct; [discriminate C3 | reflexivity]. }
  unfold get_gemini_response, try_body. rewrite S.
  cbn [and_then]. unfold has_text_part, first_content.
  cbn [py_get py_item]. rewrite C1.
  cbn [and_then truthy negb py_len py_first List.length py_get py_item].
  rewrite C2. rewrite T.
  cbn [and_then truthy negb py_len py_first List.length py_get py_item].
  rewrite C3.
  cbn [and_then truthy negb py_len py_first List.length py_get py_item].
  reflexivity.
Qed.


(** X18.  An answer without a usable candidate: no candidates, a first candidate
    without content, or a content without parts.  The fixed message is
    returned and no error is shown. *)
Theorem no_valid_response prompt d :
  send json_dumps exchange prompt = Done (JDict d) ->
  truthy (member d "candidates") = false
  \/ (exists c rest,
        Dict.get d "candidates" = Some (JList (JDict c :: rest))
        /\ (truthy (member c "content") = false
            \/ exists ct,
                 Dict.get c "content" = Some (JDict ct)
                 /\ (member ct "parts" = JNull
                     \/ member ct "parts" = JList []))) ->
  get_gemini_response json_dumps exchange str prompt
  = ([], JStr "No valid response or content from Gemini API.").
Proof.
  intros S H.
  unfold get_gemini_response, try_body. rewrite S. cbn [and_then]. unfold has_text_part, first_content.
  cbn [py_get py_item]. unfold member in H.
  destruct H as [H | [c [rest [C1 H]]]].
  - destruct (Dict.get d "candidates") as [x |]; cbn [and_then];
      rewrite H; reflexivity.
  - rewrite C1.
    cbn [and_then truthy negb py_len py_first List.length py_get py_item].
    destruct H as [H | [ct [C2 H]]].
    + destruct (Dict.get c "content") as [x |]; cbn [and_then];
        rewrite H; reflexivity.
    + rewrite C2.
      destruct ct as [| kv ct]; [reflexivity |].
      cbn [and_then truthy negb py_len py_first List.length py_get py_item].
      destruct H as [H | H]; rewrite H; reflexivity.
Qed.

(** X19.  An answer that is not an object is reported as an unexpected error. *)
Theorem answer_not_an_object prompt v :
  send json_dumps exchange prompt = Done v ->
  (forall d, v <> JDict d) ->
  get_gemini_response json_dumps exchange str prompt
  = (let e := AttributeError (type_name v) "get" in
     ([ st_error ("🚫 An unexpected error occurred during API call: " ++ str e) ],
      JStr ("An unexpected error occurred: " ++ str e))).
Proof.
  intros S H.
  unfold get_gemini_response, try_body. rewrite S. cbn [and_then]. unfold has_text_part.
  destruct v; try reflexivity. exfalso. apply (H members). reflexivity.
Qed.

(** X20.  When no error is shown, the exchange has answered with an object: a
    failed exchange and an answer of any other type are always reported. *)
Theorem no_error_means_object prompt text :
  get_gemini_response json_dumps exchange str prompt = ([], text) ->
  exists d, send json_dumps exchange prompt = Done (JDict d).
Proof.
  unfold get_gemini_response, try_body.
  destruct (send json_dumps exchange prompt) as [v | e].
  - cbn [and_then]. destruct v;
      try (unfold has_text_part; cbn [py_get and_then]; discriminate).
    intros _. eexists. reflexivity.
  - cbn [and_then]. destruct e; discriminate.
Qed.

End ExchangeFacts.

Lemma text_of_first_part_witness :
  get_gemini_response (fun _ => "") (fun _ _ _ => Done sample_answer)
    (fun _ => "") "prompt"
  = ([], JStr "Cycle to work.").
Proof.
  apply (text_of_first_part (fun _ => "") (fun _ _ _ => Done sample_answer)
           (fun _ => "") "prompt"
           [ ("candidates",
              JList [ JDict [ ("content",
                               JDict [ ("parts",
                                        JList [ JDict [ ("text", JStr "Cycle to work.") ] ]);
                                       ("role", JStr "model") ]);
                              ("finishReason", JStr "STOP") ] ]);
             ("usageMetadata", JDict [ ("totalTokenCount", JInt 42) ]) ]
           [ ("content",
              JDict [ ("parts",
                       JList [ JDict [ ("text", JStr "Cycle to work.") ] ]);
                      ("role", JStr "model") ]);
             ("finishReason", JStr "STOP") ]
           []
           [ ("parts", JList [ JDict [ ("text", JStr "Cycle to work.") ] ]);
             ("role", JStr "model") ]
           [ ("text", JStr "Cycle to work.") ]
           []); reflexivity.
Defined.

Lemma no_valid_response_witness :
  get_gemini_response (fun _ => "")
    (fun _ _ _ => Done (JDict [ ("promptFeedback", JDict [ ("blockReason", JStr "SAFETY") ]) ]))
    (fun _ => "") "prompt"
  = ([], JStr "No valid response or content from Gemini API.").
Proof.
  apply (no_valid_response (fun _ => "")
           (fun _ _ _ => Done (JDict [ ("promptFeedback", JDict [ ("blockReason", JStr "SAFETY") ]) ]))
           (fun _ => "") "prompt"
           [ ("promptFeedback", JDict [ ("blockReason", JStr "SAFETY") ]) ]).
  - reflexivity.
  - left. reflexivity.
Defined.

Lemma answer_not_an_object_witness :
  get_gemini_response (fun _ => "")
    (fun _ _ _ => Done (JList [])) (fun _ => "no get") "prompt"
  = ([ st_error "🚫 An unexpected error occurred during API call: no get" ],
     JStr "An unexpected error occurred: no get").
Proof.
  apply (answer_not_an_object (fun _ => "") (fun _ _ _ => Done (JList []))
           (fun _ => "no get") "prompt" (JList [])).
  - reflexivity.
  - intros d H. discriminate H.
Defined.

Lemma no_error_means_object_witness :
  exists d,
    send (fun _ => "") (fun _ _ _ => Done sample_answer) "prompt"
    = Done (JDict d).
Proof.
  apply (no_error_means_object (fun _ => "") (fun _ _ _ => Done sample_answer)
           (fun _ => "") "prompt" (JStr "Cycle to work.")).
  reflexivity.
Defined.

End GeminiFacts.
